(** * The Aquarea Smart Cloud integration: entry lifecycle and base entity

    A shallow embedding of [custom_components/aquarea/__init__.py].

    The module glues two opaque collaborators together: the vendor client
    ([aioaquarea]) and the host platform (Home Assistant).  The code of the
    module itself is embedded as functions in a state-and-exception monad
    over a [World] that holds the process-wide registry [hass.data[DOMAIN]],
    the host's entity and device registries, an allocation counter (Python
    object identity) and the history of calls made to the collaborators.
    What a collaborator answers is not part of this module: it is supplied
    by a [Host] record, each answer being a function of the call history and
    of the arguments, so that every statement below quantifies over all
    deterministic behaviours of the collaborators.  The collaborators are
    taken not to write to [hass.data[DOMAIN]], which belongs to this module,
    and calls are run one after the other (one task of the event loop). *)

From stdpp Require Import gmap strings list fin_maps.

Local Open Scope string_scope.
Local Open Scope list_scope.

(** ** The vendor library *)

Module aioaquarea.

(** The error-code enumeration.  The source names two members; every other
    member is represented by [OTHER_CODE] with its value. *)
Inductive AuthenticationErrorCodes : Type :=
| INVALID_USERNAME_OR_PASSWORD
| INVALID_CREDENTIALS
| OTHER_CODE (value : string).

(** The device descriptor returned by discovery. *)
Record DeviceInfo : Type := {
  device_id : string;
  name : string;
  manufacturer : string;
  version : string;
}.

(** A client object.  [client_obj] is the identity of the Python object;
    two clients are the same instance exactly when it is equal. *)
Record Client : Type := {
  client_obj : nat;
  session : nat;
  username : option string;
  password : option string;
}.

End aioaquarea.

#[global] Instance AuthenticationErrorCodes_eq_dec :
  EqDecision aioaquarea.AuthenticationErrorCodes.
Proof. solve_decision. Defined.

#[global] Instance DeviceInfo_eq_dec : EqDecision aioaquarea.DeviceInfo.
Proof. solve_decision. Defined.

#[global] Instance Client_eq_dec : EqDecision aioaquarea.Client.
Proof. solve_decision. Defined.

(** ** The host platform's data *)

Inductive Platform : Type := SENSOR | CLIMATE | BINARY_SENSOR | WATER_HEATER.

Definition PLATFORMS : list Platform :=
  [SENSOR; CLIMATE; BINARY_SENSOR; WATER_HEATER].

(** [entry.data.get(CONF_USERNAME)] and [entry.data.get(CONF_PASSWORD)] are
    [None] when the key is missing. *)
Record ConfigEntry : Type := {
  entry_id : string;
  conf_username : option string;
  conf_password : option string;
}.

Module device_registry.

Record DeviceEntry : Type := {
  id : string;
  config_entries : list string;
  identifiers : list (string * string);
}.

(** The host's helper: the devices attached to a configuration entry. *)
Definition async_entries_for_config_entry
    (dev_reg : list DeviceEntry) (config_entry_id : string) : list DeviceEntry :=
  filter (fun d => config_entry_id ∈ config_entries d) dev_reg.

End device_registry.

Module entity_registry.

Record RegistryEntry : Type := {
  entity_id : string;
  config_entry_id : option string;
  device_id : option string;
}.

(** The host's helper: the entities created by a configuration entry. *)
Definition async_entries_for_config_entry
    (ent_reg : list RegistryEntry) (entry : string) : list RegistryEntry :=
  filter (fun e => config_entry_id e = Some entry) ent_reg.

End entity_registry.

(** [homeassistant.helpers.entity.DeviceInfo] *)
Module entity.

Record DeviceInfo : Type := {
  identifiers : gset (string * string);
  manufacturer : string;
  model : string;
  name : string;
  sw_version : string;
}.

End entity.

(** ** Constants and classes of the integration that live in sibling files *)

(** Modelled from the spec: [const.py] is not under src/.  [DOMAIN] is the
    domain name under which the process-wide registry is stored in
    [hass.data]; a custom integration's domain is its directory name.  No
    statement below depends on the value. *)
Definition DOMAIN : string := "aquarea".

(** Modelled from the spec: [coordinator.py] is not under src/.  The spec's
    data model says that a coordinator is "one per device, owns a reference
    to the client and device descriptor"; the record keeps the arguments of
    the constructor call in [async_setup_entry], and [device] is the
    descriptor the coordinator wraps (what [coordinator.device] reads). *)
Record AquareaDataUpdateCoordinator : Type := {
  entry : ConfigEntry;
  client : aioaquarea.Client;
  device : aioaquarea.DeviceInfo;
}.

(** ** The process-wide registry *)

(** The value stored under an entry id: [{CLIENT: ..., DEVICES: {...}}]. *)
Record Slot : Type := {
  CLIENT : option aioaquarea.Client;
  DEVICES : gmap string AquareaDataUpdateCoordinator;
}.

(** ** Exceptions, outcomes and the call history *)

Inductive exn : Type :=
| AuthenticationError (error_code : aioaquarea.AuthenticationErrorCodes)
| ConfigEntryAuthFailed (cause : option aioaquarea.AuthenticationErrorCodes)
| KeyError (key : string)
| AttributeError
| HostError (what : string).

Inductive outcome (A : Type) : Type :=
| Return (a : A)
| Raise (e : exn).
Arguments Return {A} a.
Arguments Raise {A} e.

(** The base entity; [coordinator] is set by the superclass constructor. *)
Record AquareaBaseEntity : Type := {
  coordinator : AquareaDataUpdateCoordinator;
  _attrs : list (string * string);
  _attr_unique_id : string;
  _attr_name : string;
  _attr_device_info : entity.DeviceInfo;
}.

(** Every call that leaves the module, in the order the calls are made. *)
Inductive Event : Type :=
| EvCreateClientSession (session : nat)
| EvNewClient (c : aioaquarea.Client)
| EvLogin (c : aioaquarea.Client)
| EvGetDevices (c : aioaquarea.Client) (include_long_id : bool)
| EvNewCoordinator (co : AquareaDataUpdateCoordinator)
| EvFirstRefresh (co : AquareaDataUpdateCoordinator)
| EvForwardEntrySetups (e : ConfigEntry) (platforms : list Platform)
| EvUnloadPlatforms (e : ConfigEntry) (platforms : list Platform)
| EvSuperAddedToHass (self : AquareaBaseEntity)
| EvHandleCoordinatorUpdate (self : AquareaBaseEntity).

(** What the collaborators answer.  Each answer may depend on everything
    that happened before (the history) and on the arguments. *)
Record Host : Type := {
  login : list Event -> aioaquarea.Client -> outcome unit;
  get_devices :
    list Event -> aioaquarea.Client -> bool -> outcome (list aioaquarea.DeviceInfo);
  async_config_entry_first_refresh :
    list Event -> AquareaDataUpdateCoordinator -> outcome unit;
  async_forward_entry_setups :
    list Event -> ConfigEntry -> list Platform -> outcome unit;
  async_unload_platforms :
    list Event -> ConfigEntry -> list Platform -> outcome bool;
  super_async_added_to_hass : list Event -> AquareaBaseEntity -> outcome unit;
  _handle_coordinator_update : list Event -> AquareaBaseEntity -> outcome unit;
}.

(** ** The world *)

Record World : Type := {
  (** [hass.data.get(DOMAIN)]: [None] while [DOMAIN] is not a key of
      [hass.data]. *)
  hass_data : option (gmap string Slot);
  (** the host's entity and device registries *)
  ent_reg : list entity_registry.RegistryEntry;
  dev_reg : list device_registry.DeviceEntry;
  (** the next fresh object identity *)
  next_obj : nat;
  (** the calls made so far, oldest first *)
  calls : list Event;
}.

Definition set_hass_data (d : option (gmap string Slot)) (w : World) : World :=
  {| hass_data := d; ent_reg := ent_reg w; dev_reg := dev_reg w;
     next_obj := next_obj w; calls := calls w |}.

Definition log_call (ev : Event) (w : World) : World :=
  {| hass_data := hass_data w; ent_reg := ent_reg w; dev_reg := dev_reg w;
     next_obj := next_obj w; calls := calls w ++ [ev] |}.

Definition bump_obj (w : World) : World :=
  {| hass_data := hass_data w; ent_reg := ent_reg w; dev_reg := dev_reg w;
     next_obj := S (next_obj w); calls := calls w |}.

(** ** The monad: state over [World], with exceptions *)

Definition M (A : Type) : Type := World -> outcome A * World.

Definition ret {A} (a : A) : M A := fun w => (Return a, w).

Definition raise {A} (e : exn) : M A := fun w => (Raise e, w).

Definition bind {A B} (m : M A) (k : A -> M B) : M B :=
  fun w =>
    match m w with
    | (Return a, w') => k a w'
    | (Raise e, w') => (Raise e, w')
    end.

Notation "x <- m ;; k" := (bind m (fun x => k))
  (at level 100, m at next level, right associativity).
Notation "m ;;; k" := (bind m (fun _ => k))
  (at level 100, right associativity).

(** [try: body except ...: handler].  The handler answers [None] for an
    exception that no [except] clause matches; such an exception goes on. *)
Definition try_except {A} (body : M A) (handler : exn -> option (M A)) : M A :=
  fun w =>
    match body w with
    | (Return a, w') => (Return a, w')
    | (Raise e, w') =>
        match handler e with
        | Some h => h w'
        | None => (Raise e, w')
        end
    end.

(** [await] a collaborator: the call is recorded, the host answers from the
    history before the call. *)
Definition await {A} (ev : Event) (answer : list Event -> outcome A) : M A :=
  fun w => (answer (calls w), log_call ev w).

(** A fresh Python object. *)
Definition new_obj : M nat := fun w => (Return (next_obj w), bump_obj w).

Definition note (ev : Event) : M unit := fun w => (Return tt, log_call ev w).

(** ** Accessors of [hass.data] *)

(** [DOMAIN in hass.data] *)
Definition domain_in_hass_data : M bool :=
  fun w => (Return (bool_decide (is_Some (hass_data w))), w).

(** [hass.data[DOMAIN]] *)
Definition hass_data_domain : M (gmap string Slot) :=
  fun w =>
    match hass_data w with
    | Some reg => (Return reg, w)
    | None => (Raise (KeyError DOMAIN), w)
    end.

(** [hass.data[DOMAIN] = reg] *)
Definition store_domain (reg : gmap string Slot) : M unit :=
  fun w => (Return tt, set_hass_data (Some reg) w).

(** [hass.data[DOMAIN][key][CLIENT] = c] *)
Definition store_client (key : string) (c : aioaquarea.Client) : M unit :=
  reg <- hass_data_domain ;;
  match reg !! key with
  | Some s => store_domain (<[key := {| CLIENT := Some c; DEVICES := DEVICES s |}]> reg)
  | None => raise (KeyError key)
  end.

(** [hass.data[DOMAIN][key][DEVICES][dev] = co] *)
Definition store_coordinator
    (key dev : string) (co : AquareaDataUpdateCoordinator) : M unit :=
  reg <- hass_data_domain ;;
  match reg !! key with
  | Some s =>
      store_domain (<[key := {| CLIENT := CLIENT s; DEVICES := <[dev := co]> (DEVICES s) |}]> reg)
  | None => raise (KeyError key)
  end.

(** ** [initialize_data] *)

Definition initialize_data (e : ConfigEntry) : M unit :=
  present <- domain_in_hass_data ;;
  (if negb present then store_domain ∅ else ret tt) ;;;
  reg <- hass_data_domain ;;
  if bool_decide (reg !! entry_id e = None)
  then store_domain (<[entry_id e := {| CLIENT := None; DEVICES := ∅ |}]> reg)
  else ret tt.

(** ** [async_setup_entry] *)

(** [aioaquarea.Client(session, username, password)] *)
Definition new_Client (s : nat) (u p : option string) : M aioaquarea.Client :=
  o <- new_obj ;;
  let c := {| aioaquarea.client_obj := o; aioaquarea.session := s;
              aioaquarea.username := u; aioaquarea.password := p |} in
  note (EvNewClient c) ;;;
  ret c.

(** [async_create_clientsession(hass)] *)
Definition async_create_clientsession : M nat :=
  s <- new_obj ;;
  note (EvCreateClientSession s) ;;;
  ret s.

(** [AquareaDataUpdateCoordinator(hass=hass, entry=entry, client=client,
    device_info=device)] *)
Definition new_Coordinator
    (e : ConfigEntry) (c : aioaquarea.Client) (d : aioaquarea.DeviceInfo)
    : M AquareaDataUpdateCoordinator :=
  let co := {| entry := e; client := c; device := d |} in
  note (EvNewCoordinator co) ;;;
  ret co.

(** The body of [for device in devices:]. *)
Fixpoint setup_devices
    (host : Host) (e : ConfigEntry) (c : aioaquarea.Client)
    (devices : list aioaquarea.DeviceInfo) : M unit :=
  match devices with
  | [] => ret tt
  | d :: rest =>
      co <- new_Coordinator e c d ;;
      store_coordinator (entry_id e) (aioaquarea.device_id d) co ;;;
      await (EvFirstRefresh co) (fun h => async_config_entry_first_refresh host h co) ;;;
      setup_devices host e c rest
  end.

(** [err.error_code in (INVALID_USERNAME_OR_PASSWORD, INVALID_CREDENTIALS)] *)
Definition is_credentials_code (code : aioaquarea.AuthenticationErrorCodes) : bool :=
  match code with
  | aioaquarea.INVALID_USERNAME_OR_PASSWORD => true
  | aioaquarea.INVALID_CREDENTIALS => true
  | aioaquarea.OTHER_CODE _ => false
  end.

(** The clause [except aioaquarea.AuthenticationError as err:]. *)
Definition setup_handler (e : exn) : option (M unit) :=
  match e with
  | AuthenticationError code =>
      Some (if is_credentials_code code
            then raise (ConfigEntryAuthFailed (Some code))
            else ret tt)
  | _ => None
  end.

(** Lines 42-50: the registry slot is made to exist and the cached client is
    reused, or a client is created and cached.  [hass.data[DOMAIN].get(id)]
    is [None] for a missing id, on which [.get(CLIENT)] raises
    [AttributeError]; [not client] holds exactly for [None], a client object
    being truthy. *)
Definition setup_client (e : ConfigEntry) : M aioaquarea.Client :=
  initialize_data e ;;;
  reg <- hass_data_domain ;;
  cached <- match reg !! entry_id e with
            | Some s => ret (CLIENT s)
            | None => raise AttributeError
            end ;;
  match cached with
  | Some c => ret c
  | None =>
      s <- async_create_clientsession ;;
      c <- new_Client s (conf_username e) (conf_password e) ;;
      store_client (entry_id e) c ;;;
      ret c
  end.

(** Lines 53-65: the body of the [try] statement. *)
Definition setup_try_body
    (host : Host) (e : ConfigEntry) (c : aioaquarea.Client) : M unit :=
  await (EvLogin c) (fun h => login host h c) ;;;
  devices <- await (EvGetDevices c true) (fun h => get_devices host h c true) ;;
  setup_devices host e c devices ;;;
  await (EvForwardEntrySetups e PLATFORMS)
        (fun h => async_forward_entry_setups host h e PLATFORMS).

Definition async_setup_entry (host : Host) (e : ConfigEntry) : M bool :=
  c <- setup_client e ;;
  try_except (setup_try_body host e c) setup_handler ;;;
  ret true.

(** ** [async_unload_entry] *)

(** [hass.data[DOMAIN].pop(key)] *)
Definition pop_slot (key : string) : M Slot :=
  reg <- hass_data_domain ;;
  match reg !! key with
  | Some s => store_domain (delete key reg) ;;; ret s
  | None => raise (KeyError key)
  end.

Definition async_unload_entry (host : Host) (e : ConfigEntry) : M bool :=
  unload_ok <- await (EvUnloadPlatforms e PLATFORMS)
                     (fun h => async_unload_platforms host h e PLATFORMS) ;;
  (if unload_ok then pop_slot (entry_id e) ;;; ret tt else ret tt) ;;;
  ret unload_ok.

(** ** [async_migrate_entry] *)

(** [entity_registry.async_get(hass)] and [device_registry.async_get(hass)] *)
Definition entity_registry_async_get : M (list entity_registry.RegistryEntry) :=
  fun w => (Return (ent_reg w), w).

Definition device_registry_async_get : M (list device_registry.DeviceEntry) :=
  fun w => (Return (dev_reg w), w).

(** [next(generator, None)]: the first element produced, if any. *)
Definition next {A} (generator : list A) : option A := head generator.

(** The local variables the loop assigns: [device], and [device_guid], which
    is bound only once some entity has had a device. *)
Record MigrateLocals : Type := {
  local_device : option device_registry.DeviceEntry;
  local_device_guid : option (option string);
}.

(** One iteration of [for entity in entities:]. *)
Definition migrate_entity
    (devices : list device_registry.DeviceEntry)
    (ent : entity_registry.RegistryEntry) (locals : MigrateLocals)
    : M MigrateLocals :=
  let found :=
    next (filter (fun d => Some (device_registry.id d) = entity_registry.device_id ent)
                 devices) in
  match found with
  | Some d =>
      let device_guid :=
        next (snd <$> filter (fun i => fst i = DOMAIN) (device_registry.identifiers d)) in
      ret {| local_device := found; local_device_guid := Some device_guid |}
  | None =>
      ret {| local_device := found; local_device_guid := local_device_guid locals |}
  end.

Fixpoint migrate_entities
    (devices : list device_registry.DeviceEntry)
    (entities : list entity_registry.RegistryEntry) (locals : MigrateLocals)
    : M MigrateLocals :=
  match entities with
  | [] => ret locals
  | ent :: rest =>
      locals' <- migrate_entity devices ent locals ;;
      migrate_entities devices rest locals'
  end.

Definition async_migrate_entry (config_entry : ConfigEntry) : M bool :=
  the_ent_reg <- entity_registry_async_get ;;
  the_dev_reg <- device_registry_async_get ;;
  let devices :=
    device_registry.async_entries_for_config_entry the_dev_reg (entry_id config_entry) in
  let entities :=
    entity_registry.async_entries_for_config_entry the_ent_reg (entry_id config_entry) in
  migrate_entities devices entities
    {| local_device := None; local_device_guid := None |} ;;;
  ret false.

(** ** [AquareaBaseEntity] *)

(** [AquareaBaseEntity.__init__]; the superclass constructor stores the
    coordinator in [self.coordinator]. *)
Definition AquareaBaseEntity__init__
    (co : AquareaDataUpdateCoordinator) : AquareaBaseEntity :=
  {| coordinator := co;
     _attrs := [("name", aioaquarea.name (device co));
                ("id", aioaquarea.device_id (device co))];
     _attr_unique_id := aioaquarea.device_id (device co);
     _attr_name := aioaquarea.name (device co);
     _attr_device_info :=
       {| entity.identifiers := {[ (DOMAIN, aioaquarea.device_id (device co)) ]};
          entity.manufacturer := aioaquarea.manufacturer (device co);
          entity.model := "";
          entity.name := aioaquarea.name (device co);
          entity.sw_version := aioaquarea.version (device co) |} |}.

(** [AquareaBaseEntity.async_added_to_hass] *)
Definition async_added_to_hass (host : Host) (self : AquareaBaseEntity) : M unit :=
  await (EvSuperAddedToHass self) (fun h => super_async_added_to_hass host h self) ;;;
  await (EvHandleCoordinatorUpdate self) (fun h => _handle_coordinator_update host h self).

(** ** Views of the registry used in the statements *)

(** The slot of an entry, [None] when the entry id (or the domain) is absent. *)
Definition slot_of (w : World) (key : string) : option Slot :=
  match hass_data w with
  | Some reg => reg !! key
  | None => None
  end.

(** The coordinators registered for an entry; none when it has no slot. *)
Definition devices_of (w : World) (key : string)
    : gmap string AquareaDataUpdateCoordinator :=
  match slot_of w key with
  | Some s => DEVICES s
  | None => ∅
  end.

(** The client cached for an entry. *)
Definition client_of (w : World) (key : string) : option aioaquarea.Client :=
  match slot_of w key with
  | Some s => CLIENT s
  | None => None
  end.

(** Every coordinator of the mapping is stored under the id of the device
    descriptor it wraps. *)
Definition keyed_by_device_id (m : gmap string AquareaDataUpdateCoordinator) : Prop :=
  forall k co, m !! k = Some co -> aioaquarea.device_id (device co) = k.

(** The mapping after the loop has stored a coordinator for each device of
    [ds], in order. *)
Definition register
    (e : ConfigEntry) (c : aioaquarea.Client) (ds : list aioaquarea.DeviceInfo)
    (m : gmap string AquareaDataUpdateCoordinator)
    : gmap string AquareaDataUpdateCoordinator :=
  foldl (fun m d => <[aioaquarea.device_id d := {| entry := e; client := c; device := d |}]> m)
        m ds.

(** The calls the loop makes for the devices of [ds]. *)
Definition device_calls
    (e : ConfigEntry) (c : aioaquarea.Client) (ds : list aioaquarea.DeviceInfo)
    : list Event :=
  ds ≫= (fun d => [EvNewCoordinator {| entry := e; client := c; device := d |};
                   EvFirstRefresh {| entry := e; client := c; device := d |}]).

Definition is_forward (ev : Event) : bool :=
  match ev with EvForwardEntrySetups _ _ => true | _ => false end.

Definition is_new_client (ev : Event) : bool :=
  match ev with EvNewClient _ | EvCreateClientSession _ => true | _ => false end.

Definition is_new_coordinator (ev : Event) : bool :=
  match ev with EvNewCoordinator _ => true | _ => false end.

Definition is_handler_call (ev : Event) : bool :=
  match ev with EvHandleCoordinatorUpdate _ => true | _ => false end.

(** How many times the coordinator-update handler was invoked. *)
Definition handler_calls (history : list Event) : nat :=
  length (filter (fun ev => is_handler_call ev = true) history).

(** What leaves [async_setup_entry] when the [try] body ends with [r]. *)
Definition setup_result (r : outcome unit) : outcome bool :=
  match r with
  | Return _ => Return true
  | Raise (AuthenticationError code) =>
      if is_credentials_code code
      then Raise (ConfigEntryAuthFailed (Some code))
      else Return true
  | Raise err => Raise err
  end.

(** ** Concrete inputs *)

(** A host process that has not set up any entry yet. *)
Definition world0 : World :=
  {| hass_data := None; ent_reg := []; dev_reg := []; next_obj := 0; calls := [] |}.

Definition entry0 : ConfigEntry :=
  {| entry_id := "entry0"; conf_username := Some "user"; conf_password := Some "pw" |}.

Definition dev_A : aioaquarea.DeviceInfo :=
  {| aioaquarea.device_id := "A"; aioaquarea.name := "Heat pump A";
     aioaquarea.manufacturer := "Panasonic"; aioaquarea.version := "1.0" |}.

Definition dev_B : aioaquarea.DeviceInfo :=
  {| aioaquarea.device_id := "B"; aioaquarea.name := "Heat pump B";
     aioaquarea.manufacturer := "Panasonic"; aioaquarea.version := "2.0" |}.

(** The client that the first setup of [entry0] in [world0] creates. *)
Definition client1 : aioaquarea.Client :=
  {| aioaquarea.client_obj := 1; aioaquarea.session := 0;
     aioaquarea.username := Some "user"; aioaquarea.password := Some "pw" |}.

Definition entity_A : AquareaBaseEntity :=
  AquareaBaseEntity__init__ {| entry := entry0; client := client1; device := dev_A |}.

(** Collaborators that never fail; discovery returns [ds] and the platforms
    unload with [unload_ok]. *)
Definition host_ok (ds : list aioaquarea.DeviceInfo) (unload_ok : bool) : Host :=
  {| login := fun _ _ => Return tt;
     get_devices := fun _ _ _ => Return ds;
     async_config_entry_first_refresh := fun _ _ => Return tt;
     async_forward_entry_setups := fun _ _ _ => Return tt;
     async_unload_platforms := fun _ _ _ => Return unload_ok;
     super_async_added_to_hass := fun _ _ => Return tt;
     _handle_coordinator_update := fun _ _ => Return tt |}.

(** Collaborators whose login raises an authentication error with [code]. *)
Definition host_login_fails (code : aioaquarea.AuthenticationErrorCodes) : Host :=
  {| login := fun _ _ => Raise (AuthenticationError code);
     get_devices := fun _ _ _ => Return [dev_A];
     async_config_entry_first_refresh := fun _ _ => Return tt;
     async_forward_entry_setups := fun _ _ _ => Return tt;
     async_unload_platforms := fun _ _ _ => Return true;
     super_async_added_to_hass := fun _ _ => Return tt;
     _handle_coordinator_update := fun _ _ => Return tt |}.

(** Collaborators that discover [ds]; the first refresh of the device with
    id [bad] raises [err], every other call succeeds. *)
Definition host_refresh_fails
    (ds : list aioaquarea.DeviceInfo) (bad : string) (err : exn) : Host :=
  {| login := fun _ _ => Return tt;
     get_devices := fun _ _ _ => Return ds;
     async_config_entry_first_refresh := fun _ co =>
       if bool_decide (aioaquarea.device_id (device co) = bad)
       then Raise err else Return tt;
     async_forward_entry_setups := fun _ _ _ => Return tt;
     async_unload_platforms := fun _ _ _ => Return true;
     super_async_added_to_hass := fun _ _ => Return tt;
     _handle_coordinator_update := fun _ _ => Return tt |}.

(** A second configuration entry, and [entry0] after the user has entered a
    new password (the host keeps the entry id). *)
Definition entry1 : ConfigEntry :=
  {| entry_id := "entry1"; conf_username := Some "other"; conf_password := Some "pw1" |}.

Definition entry0_new_password : ConfigEntry :=
  {| entry_id := "entry0"; conf_username := Some "user"; conf_password := Some "new" |}.

(** Collaborators whose discovery raises [err] after a successful login. *)
Definition host_discovery_fails (err : exn) : Host :=
  {| login := fun _ _ => Return tt;
     get_devices := fun _ _ _ => Raise err;
     async_config_entry_first_refresh := fun _ _ => Return tt;
     async_forward_entry_setups := fun _ _ _ => Return tt;
     async_unload_platforms := fun _ _ _ => Return true;
     super_async_added_to_hass := fun _ _ => Return tt;
     _handle_coordinator_update := fun _ _ => Return tt |}.

(** Collaborators that discover [ds] and refresh every device, but whose
    platform forwarding raises [err]. *)
Definition host_forward_fails (ds : list aioaquarea.DeviceInfo) (err : exn) : Host :=
  {| login := fun _ _ => Return tt;
     get_devices := fun _ _ _ => Return ds;
     async_config_entry_first_refresh := fun _ _ => Return tt;
     async_forward_entry_setups := fun _ _ _ => Raise err;
     async_unload_platforms := fun _ _ _ => Return true;
     super_async_added_to_hass := fun _ _ => Return tt;
     _handle_coordinator_update := fun _ _ => Return tt |}.

(** Collaborators whose platform unload and superclass attach step raise
    [err]. *)
Definition host_lifecycle_fails (err : exn) : Host :=
  {| login := fun _ _ => Return tt;
     get_devices := fun _ _ _ => Return [];
     async_config_entry_first_refresh := fun _ _ => Return tt;
     async_forward_entry_setups := fun _ _ _ => Return tt;
     async_unload_platforms := fun _ _ _ => Raise err;
     super_async_added_to_hass := fun _ _ => Raise err;
     _handle_coordinator_update := fun _ _ => Return tt |}.

(** The device-registry entry the host keeps for the device of an entity:
    its identifiers are those of the entity's device info. *)
Definition device_entry_of
    (reg_id : string) (config_entry : string) (ent : AquareaBaseEntity)
    : device_registry.DeviceEntry :=
  {| device_registry.id := reg_id;
     device_registry.config_entries := [config_entry];
     device_registry.identifiers :=
       elements (entity.identifiers (_attr_device_info ent)) |}.

(** The slot [initialize_data] creates. *)
Definition empty_slot : Slot := {| CLIENT := None; DEVICES := ∅ |}.

(** The calls that obtain the client: none when one is cached. *)
Definition client_calls (w : World) (key : string) (c : aioaquarea.Client) : list Event :=
  match client_of w key with
  | Some _ => []
  | None => [EvCreateClientSession (next_obj w); EvNewClient c]
  end.

(** ** Histories of lifecycle calls *)

(** The worlds the host can reach: it starts without the domain in
    [hass.data] and calls the three lifecycle functions, for any entries, in
    any order, the collaborators answering as they like. *)
Inductive reachable : World -> Prop :=
| reach_start w :
    hass_data w = None -> reachable w
| reach_setup host e w :
    reachable w -> reachable (snd (async_setup_entry host e w))
| reach_unload host e w :
    reachable w -> reachable (snd (async_unload_entry host e w))
| reach_migrate e w :
    reachable w -> reachable (snd (async_migrate_entry e w)).

(** Every coordinator of every slot is stored under the device id of its
    descriptor, belongs to the entry of the slot, and holds the client that
    the slot caches. *)
Definition registry_consistent (w : World) : Prop :=
  forall key s k co,
    slot_of w key = Some s -> DEVICES s !! k = Some co ->
    aioaquarea.device_id (device co) = k /\
    entry_id (entry co) = key /\
    CLIENT s = Some (client co).

(** ** Running the primitives *)

Ltac run :=
  unfold async_create_clientsession, new_Client, new_Coordinator, store_client,
    store_coordinator, pop_slot, hass_data_domain, store_domain,
    domain_in_hass_data, new_obj, note, await, try_except, bind, ret, raise;
  simpl.

Lemma slot_of_Some w reg key :
  hass_data w = Some reg -> slot_of w key = reg !! key.
Proof. intros H. unfold slot_of. by rewrite H. Qed.

Lemma devices_of_slot w key s :
  slot_of w key = Some s -> devices_of w key = DEVICES s.
Proof. intros H. unfold devices_of. by rewrite H. Qed.

Lemma client_of_slot w key s :
  slot_of w key = Some s -> client_of w key = CLIENT s.
Proof. intros H. unfold client_of. by rewrite H. Qed.

Lemma slot_eta (s : Slot) : {| CLIENT := CLIENT s; DEVICES := DEVICES s |} = s.
Proof. by destruct s. Qed.

(** [initialize_data] never fails, creates the slot when it is missing and
    touches nothing else. *)
Lemma initialize_data_run e w :
  exists w' reg s,
    initialize_data e w = (Return tt, w') /\
    hass_data w' = Some reg /\ reg !! entry_id e = Some s /\
    CLIENT s = client_of w (entry_id e) /\
    DEVICES s = devices_of w (entry_id e) /\
    (forall k, k ≠ entry_id e -> reg !! k = slot_of w k) /\
    calls w' = calls w /\ next_obj w' = next_obj w.
Proof.
  unfold initialize_data, client_of, devices_of, slot_of. run.
  destruct (hass_data w) as [reg|] eqn:Hd; simpl.
  - rewrite Hd. case_bool_decide as Hk; simpl.
    + eexists _, _, _. split; [reflexivity|]. simpl.
      split; [reflexivity|]. rewrite lookup_insert_eq, Hk.
      repeat split; try done. intros k Hne. by rewrite lookup_insert_ne.
    + destruct (reg !! entry_id e) as [s|] eqn:Hs; [|done].
      eexists _, _, _. split; [reflexivity|]. rewrite Hd.
      split; [reflexivity|]. rewrite Hs. repeat split; done.
  - eexists _, _, _. split; [reflexivity|]. simpl.
    split; [reflexivity|]. rewrite lookup_insert_eq.
    repeat split; try done. intros k Hne. by rewrite lookup_insert_ne, lookup_empty.
Qed.

(** Lines 42-50 never fail.  They leave the entry with a slot that caches a
    client and keeps the coordinators it had; the cached client is the one
    that was there, and a client is constructed only when there was none. *)
Lemma setup_client_run e w :
  exists c w1 reg s,
    setup_client e w = (Return c, w1) /\
    hass_data w1 = Some reg /\ reg !! entry_id e = Some s /\
    CLIENT s = Some c /\ DEVICES s = devices_of w (entry_id e) /\
    (forall k, k ≠ entry_id e -> reg !! k = slot_of w k) /\
    match client_of w (entry_id e) with
    | Some c0 => c = c0 /\ calls w1 = calls w /\ next_obj w1 = next_obj w
    | None =>
        c = {| aioaquarea.client_obj := S (next_obj w);
               aioaquarea.session := next_obj w;
               aioaquarea.username := conf_username e;
               aioaquarea.password := conf_password e |} /\
        calls w1 = calls w ++ [EvCreateClientSession (next_obj w); EvNewClient c] /\
        next_obj w1 = S (S (next_obj w))
    end.
Proof.
  destruct (initialize_data_run e w)
    as (w' & reg & s & Hrun & Hd & Hs & Hc & Hds & Hother & Hcalls & Hobj).
  unfold setup_client. unfold bind at 1. rewrite Hrun. run. rewrite Hd, Hs.
  rewrite <- Hc. destruct (CLIENT s) as [c0|] eqn:Hcl.
  - exists c0, w', reg, s. repeat split; done.
  - rewrite Hd. simpl. rewrite Hs. eexists _, _, _, _.
    split; [reflexivity|]. simpl. split; [reflexivity|].
    rewrite lookup_insert_eq. split; [reflexivity|]. simpl.
    rewrite Hcalls, Hobj, <- app_assoc. repeat split; try done.
    intros k Hne. rewrite lookup_insert_ne by done. by apply Hother.
Qed.

(** ** The device loop *)

Lemma register_snoc e c ds d m :
  register e c (ds ++ [d]) m =
  <[aioaquarea.device_id d := {| entry := e; client := c; device := d |}]>
    (register e c ds m).
Proof. unfold register. by rewrite foldl_app. Qed.

Lemma register_app e c ds1 ds2 m :
  register e c (ds1 ++ ds2) m = register e c ds2 (register e c ds1 m).
Proof. unfold register. by rewrite foldl_app. Qed.

Lemma register_cons e c d ds m :
  register e c (d :: ds) m =
  register e c ds
    (<[aioaquarea.device_id d := {| entry := e; client := c; device := d |}]> m).
Proof. reflexivity. Qed.

Lemma device_calls_cons e c d ds :
  device_calls e c (d :: ds) =
  EvNewCoordinator {| entry := e; client := c; device := d |}
  :: EvFirstRefresh {| entry := e; client := c; device := d |}
  :: device_calls e c ds.
Proof. reflexivity. Qed.

(** One iteration, up to the answer of the first refresh. *)
Lemma setup_devices_step host e c d rest w reg s :
  hass_data w = Some reg -> reg !! entry_id e = Some s ->
  let co := {| entry := e; client := c; device := d |} in
  let w1 :=
    log_call (EvFirstRefresh co)
      (set_hass_data
         (Some (<[entry_id e :=
                    {| CLIENT := CLIENT s;
                       DEVICES := <[aioaquarea.device_id d := co]> (DEVICES s) |}]> reg))
         (log_call (EvNewCoordinator co) w)) in
  setup_devices host e c (d :: rest) w =
  match async_config_entry_first_refresh host (calls w ++ [EvNewCoordinator co]) co with
  | Return _ => setup_devices host e c rest w1
  | Raise err => (Raise err, w1)
  end.
Proof.
  intros Hd Hs. simpl. run. rewrite Hd, Hs. simpl.
  by destruct (async_config_entry_first_refresh host _ _).
Qed.

(** Whatever the host answers, the loop processes a prefix of the devices:
    it stores their coordinators in the entry's slot, makes their calls, and
    changes nothing else.  It returns exactly when the prefix is the whole
    list. *)
Lemma setup_devices_any host e c ds :
  forall w reg s,
    hass_data w = Some reg -> reg !! entry_id e = Some s ->
    exists r w' done_ds,
      setup_devices host e c ds w = (r, w') /\
      done_ds `prefix_of` ds /\
      (r = Return tt -> done_ds = ds) /\
      hass_data w' =
        Some (<[entry_id e :=
                  {| CLIENT := CLIENT s;
                     DEVICES := register e c done_ds (DEVICES s) |}]> reg) /\
      calls w' = calls w ++ device_calls e c done_ds /\
      next_obj w' = next_obj w.
Proof.
  induction ds as [|d rest IH]; intros w reg s Hd Hs.
  - exists (Return tt), w, []. simpl. rewrite slot_eta, insert_id by done.
    rewrite app_nil_r. repeat split; done.
  - rewrite (setup_devices_step _ _ _ _ _ _ _ _ Hd Hs).
    destruct (async_config_entry_first_refresh host _ _) as [[]|err].
    + match goal with
      | |- context [setup_devices host e c rest ?w1] =>
          destruct (IH w1 _ _ eq_refl (lookup_insert_eq _ _ _))
            as (r & w' & done_ds & Hrun & Hpre & Hall & Hd' & Hc' & Ho')
      end.
      exists r, w', (d :: done_ds). rewrite Hrun. split; [done|].
      split; [by apply prefix_cons|]. split; [intros ->%Hall; done|].
      rewrite Hd', Hc', insert_insert_eq, device_calls_cons. simpl.
      rewrite <- !app_assoc. done.
    + eexists _, _, [d]. split; [reflexivity|]. simpl.
      split; [apply prefix_cons, prefix_nil|]. split; [done|].
      rewrite <- app_assoc. done.
Qed.

(** When every first refresh succeeds the loop returns, having stored one
    coordinator for each device. *)
Lemma setup_devices_ok host e c ds :
  (forall h d, d ∈ ds ->
     async_config_entry_first_refresh host h {| entry := e; client := c; device := d |}
     = Return tt) ->
  forall w reg s,
    hass_data w = Some reg -> reg !! entry_id e = Some s ->
    exists w',
      setup_devices host e c ds w = (Return tt, w') /\
      hass_data w' =
        Some (<[entry_id e :=
                  {| CLIENT := CLIENT s; DEVICES := register e c ds (DEVICES s) |}]> reg) /\
      calls w' = calls w ++ device_calls e c ds /\
      next_obj w' = next_obj w.
Proof.
  induction ds as [|d rest IH]; intros Hok w reg s Hd Hs.
  - exists w. simpl. rewrite slot_eta, insert_id, app_nil_r by done. done.
  - rewrite (setup_devices_step _ _ _ _ _ _ _ _ Hd Hs), Hok by left.
    match goal with
    | |- context [setup_devices host e c rest ?w1] =>
        destruct (IH (fun h d' Hin => Hok h d' (list_elem_of_further _ _ _ Hin))
                     w1 _ _ eq_refl (lookup_insert_eq _ _ _))
          as (w' & Hrun & Hd' & Hc' & Ho')
    end.
    exists w'. rewrite Hrun, Hd', Hc', insert_insert_eq, device_calls_cons. simpl.
    rewrite <- !app_assoc. done.
Qed.

(** When the first refresh of a device raises after those of the devices
    before it succeeded, the loop stops there with that exception: the
    coordinators of the earlier devices and of the failing device are in the
    slot, and nothing was done for the devices after it. *)
Lemma setup_devices_raise host e c pre d post err :
  (forall h d', d' ∈ pre ->
     async_config_entry_first_refresh host h {| entry := e; client := c; device := d' |}
     = Return tt) ->
  (forall h,
     async_config_entry_first_refresh host h {| entry := e; client := c; device := d |}
     = Raise err) ->
  forall w reg s,
    hass_data w = Some reg -> reg !! entry_id e = Some s ->
    exists w',
      setup_devices host e c (pre ++ d :: post) w = (Raise err, w') /\
      hass_data w' =
        Some (<[entry_id e :=
                  {| CLIENT := CLIENT s;
                     DEVICES := register e c (pre ++ [d]) (DEVICES s) |}]> reg) /\
      calls w' = calls w ++ device_calls e c (pre ++ [d]) /\
      next_obj w' = next_obj w.
Proof.
  intros Hok Herr. induction pre as [|p pre IH]; intros w reg s Hd Hs.
  - rewrite app_nil_l, (setup_devices_step _ _ _ _ _ _ _ _ Hd Hs), Herr.
    eexists. split; [reflexivity|]. simpl. rewrite <- app_assoc. done.
  - rewrite <- app_comm_cons, (setup_devices_step _ _ _ _ _ _ _ _ Hd Hs), Hok by left.
    match goal with
    | |- context [setup_devices host e c _ ?w1] =>
        destruct (IH (fun h d' Hin => Hok h d' (list_elem_of_further _ _ _ Hin))
                     w1 _ _ eq_refl (lookup_insert_eq _ _ _))
          as (w' & Hrun & Hd' & Hc' & Ho')
    end.
    exists w'. rewrite Hrun, Hd', Hc', insert_insert_eq, <- app_comm_cons,
      device_calls_cons. simpl. rewrite <- !app_assoc. done.
Qed.

(** ** What [register] stores *)

Lemma register_dom e c ds m :
  dom (register e c ds m) = dom m ∪ list_to_set (aioaquarea.device_id <$> ds).
Proof.
  revert m. induction ds as [|d ds IH]; intros m.
  - simpl. by rewrite (right_id_L ∅ (∪)).
  - rewrite register_cons, IH, dom_insert_L. simpl.
    by rewrite (comm_L (∪) _ (dom m)), <- (assoc_L (∪)).
Qed.

Lemma register_keyed e c ds m :
  keyed_by_device_id m -> keyed_by_device_id (register e c ds m).
Proof.
  revert m. induction ds as [|d ds IH]; intros m Hm; [done|].
  rewrite register_cons. apply IH. intros k co.
  destruct (decide (aioaquarea.device_id d = k)) as [<-|Hne].
  - rewrite lookup_insert_eq. by intros [= <-].
  - rewrite lookup_insert_ne by done. apply Hm.
Qed.

Lemma register_lookup_other e c ds m k :
  k ∉ aioaquarea.device_id <$> ds -> register e c ds m !! k = m !! k.
Proof.
  revert m. induction ds as [|d ds IH]; intros m Hk; [done|].
  rewrite fmap_cons, not_elem_of_cons in Hk. destruct Hk as [Hne Hk].
  rewrite register_cons, IH, lookup_insert_ne by done. done.
Qed.

(** A device whose id does not come again later in the list keeps its own
    coordinator. *)
Lemma register_lookup_last e c pre d post m :
  aioaquarea.device_id d ∉ aioaquarea.device_id <$> post ->
  register e c (pre ++ d :: post) m !! aioaquarea.device_id d
  = Some {| entry := e; client := c; device := d |}.
Proof.
  intros Hlast.
  rewrite register_app, register_cons, register_lookup_other by done.
  apply lookup_insert_eq.
Qed.

Lemma register_size e c ds :
  NoDup (aioaquarea.device_id <$> ds) ->
  size (register e c ds ∅) = length ds.
Proof.
  intros Hnd.
  rewrite <- size_dom, register_dom, dom_empty_L, (left_id_L ∅ (∪)).
  rewrite size_list_to_set by done. by rewrite length_fmap.
Qed.

(** ** Unfolding [async_setup_entry] *)

Lemma setup_try_body_unfold host e c w :
  setup_try_body host e c w =
  match login host (calls w) c with
  | Raise err => (Raise err, log_call (EvLogin c) w)
  | Return _ =>
      let w1 := log_call (EvLogin c) w in
      match get_devices host (calls w1) c true with
      | Raise err => (Raise err, log_call (EvGetDevices c true) w1)
      | Return ds =>
          match setup_devices host e c ds (log_call (EvGetDevices c true) w1) with
          | (Raise err, w2) => (Raise err, w2)
          | (Return _, w2) =>
              (async_forward_entry_setups host (calls w2) e PLATFORMS,
               log_call (EvForwardEntrySetups e PLATFORMS) w2)
          end
      end
  end.
Proof.
  unfold setup_try_body. run.
  destruct (login host (calls w) c) as [[]|err]; [|done].
  destruct (get_devices host _ c true) as [ds|err]; [|done].
  destruct (setup_devices host e c ds _) as [[[]|err] w2]; [|done].
  by destruct (async_forward_entry_setups host _ _ _) as [[]|err].
Qed.

Lemma async_setup_entry_unfold host e w c w1 :
  setup_client e w = (Return c, w1) ->
  async_setup_entry host e w =
  (setup_result (fst (setup_try_body host e c w1)), snd (setup_try_body host e c w1)).
Proof.
  intros Hc. unfold async_setup_entry. unfold bind at 1. rewrite Hc.
  unfold bind, try_except, ret.
  destruct (setup_try_body host e c w1) as [[[]|err] w2]; [done|].
  destruct err as [code| | | |]; try done. simpl.
  by destruct (is_credentials_code code).
Qed.

Lemma device_calls_events e c ds ev :
  ev ∈ device_calls e c ds ->
  exists co, ev = EvNewCoordinator co \/ ev = EvFirstRefresh co.
Proof.
  induction ds as [|d ds IH]; [by intros ?%elem_of_nil|].
  rewrite device_calls_cons, !elem_of_cons. intros [->|[->|Hin]]; eauto.
Qed.

Lemma device_calls_no_client e c ds :
  Forall (fun ev => is_new_client ev = false) (device_calls e c ds).
Proof.
  apply Forall_forall. intros ev [co [-> | ->]]%device_calls_events; done.
Qed.

Lemma device_calls_no_forward e c ds :
  Forall (fun ev => is_forward ev = false) (device_calls e c ds).
Proof.
  apply Forall_forall. intros ev [co [-> | ->]]%device_calls_events; done.
Qed.

(** Whatever the host answers, the [try] body keeps the slot and its client,
    stores coordinators for a prefix of what discovery returned and for
    nothing else, creates no object, and its first call is the login of the
    client it was given. *)
Lemma setup_try_body_any host e c w reg s :
  hass_data w = Some reg -> reg !! entry_id e = Some s ->
  exists r w' done_ds rest,
    setup_try_body host e c w = (r, w') /\
    hass_data w' =
      Some (<[entry_id e :=
                {| CLIENT := CLIENT s;
                   DEVICES := register e c done_ds (DEVICES s) |}]> reg) /\
    calls w' = calls w ++ EvLogin c :: rest /\
    Forall (fun ev => is_new_client ev = false) rest /\
    next_obj w' = next_obj w.
Proof.
  intros Hd Hs. rewrite setup_try_body_unfold.
  destruct (login host (calls w) c) as [[]|err].
  - cbv zeta. destruct (get_devices host _ c true) as [ds|err].
    + match goal with
      | |- context [setup_devices host e c ds ?w1] =>
          destruct (setup_devices_any host e c ds w1 reg s Hd Hs)
            as (r & w2 & done_ds & Hrun & _ & _ & Hd2 & Hc2 & Ho2)
      end.
      rewrite Hrun. simpl in Hc2. rewrite <- !app_assoc in Hc2. simpl in Hc2.
      destruct r as [[]|err].
      * eexists _, _, done_ds, _. split; [reflexivity|]. simpl.
        rewrite Hd2, Hc2, <- !app_assoc. simpl.
        split; [reflexivity|]. split; [reflexivity|]. split; [|done].
        constructor; [done|]. apply Forall_app. split; [|by constructor].
        apply device_calls_no_client.
      * eexists _, _, done_ds, _. split; [reflexivity|].
        rewrite Hd2, Hc2. split; [reflexivity|]. split; [reflexivity|].
        split; [|done]. constructor; [done|]. apply device_calls_no_client.
    + eexists _, _, [], _. split; [reflexivity|]. simpl.
      rewrite Hd, slot_eta, insert_id, <- app_assoc by done. simpl.
      split; [reflexivity|]. split; [reflexivity|]. split; [|done].
      by repeat constructor.
  - eexists _, _, [], []. split; [reflexivity|]. simpl.
    rewrite Hd, slot_eta, insert_id by done. done.
Qed.

(** Whatever the host answers and however the call ends, after
    [async_setup_entry] the entry has a slot with a cached client, and its
    coordinators are those it had plus those stored for some of the devices;
    when a client was cached before the call it is that one, and the call
    created no object and began by logging that client in. *)
Lemma async_setup_entry_any host e w :
  exists c done_ds,
    client_of (snd (async_setup_entry host e w)) (entry_id e) = Some c /\
    devices_of (snd (async_setup_entry host e w)) (entry_id e)
    = register e c done_ds (devices_of w (entry_id e)) /\
    forall c0, client_of w (entry_id e) = Some c0 ->
      c = c0 /\
      next_obj (snd (async_setup_entry host e w)) = next_obj w /\
      exists rest,
        calls (snd (async_setup_entry host e w)) = calls w ++ EvLogin c0 :: rest /\
        Forall (fun ev => is_new_client ev = false) rest.
Proof.
  destruct (setup_client_run e w)
    as (c & w1 & reg & s & Hrun & Hd & Hs & Hc & Hds & _ & Hcached).
  rewrite (async_setup_entry_unfold _ _ _ _ _ Hrun). simpl.
  destruct (setup_try_body_any host e c w1 reg s Hd Hs)
    as (r & w2 & done_ds & rest & Hbody & Hd2 & Hc2 & Hrest & Ho2).
  rewrite Hbody. simpl. exists c, done_ds.
  unfold client_of at 1, devices_of at 1.
  rewrite (slot_of_Some _ _ _ Hd2), lookup_insert_eq. simpl. rewrite Hds.
  split; [done|]. split; [done|].
  intros c0 Hc0. rewrite Hc0 in Hcached. destruct Hcached as (-> & Hcalls & Hobj).
  split; [done|]. split; [congruence|].
  exists rest. rewrite Hc2, Hcalls. done.
Qed.

(** A slot exists for the entry after any call of [async_setup_entry]. *)
Lemma async_setup_entry_creates_slot host e w :
  is_Some (slot_of (snd (async_setup_entry host e w)) (entry_id e)).
Proof.
  destruct (async_setup_entry_any host e w) as (c & ds & Hc & _).
  unfold client_of in Hc.
  destruct (slot_of (snd (async_setup_entry host e w)) (entry_id e)); [eauto|done].
Qed.

(** Every call of [async_setup_entry], successful or not, keeps the
    coordinators keyed by the device id of their descriptor. *)
Lemma async_setup_entry_keeps_keyed host e w :
  keyed_by_device_id (devices_of w (entry_id e)) ->
  keyed_by_device_id (devices_of (snd (async_setup_entry host e w)) (entry_id e)).
Proof.
  intros Hk. destruct (async_setup_entry_any host e w) as (c & ds & _ & -> & _).
  by apply register_keyed.
Qed.

(** ** Authentication failures during setup *)

(** When login raises, the [try] body ends at once with that exception. *)
Lemma setup_try_body_login_raises host e c w err :
  login host (calls w) c = Raise err ->
  setup_try_body host e c w = (Raise err, log_call (EvLogin c) w).
Proof. intros H. by rewrite setup_try_body_unfold, H. Qed.

(** An authentication error of login whose code is not one of the two
    credential codes is caught by the [except] clause, whose [if] has no
    other branch: control reaches [return True]. *)
Lemma setup_swallows_other_auth_error host e w code :
  is_credentials_code code = false ->
  (forall h c, login host h c = Raise (AuthenticationError code)) ->
  fst (async_setup_entry host e w) = Return true.
Proof.
  intros Hcode Hlogin.
  destruct (setup_client_run e w) as (c & w1 & reg & s & Hrun & _).
  rewrite (async_setup_entry_unfold _ _ _ _ _ Hrun).
  rewrite (setup_try_body_login_raises _ _ _ _ _ (Hlogin _ _)). simpl.
  by rewrite Hcode.
Qed.

(** C1 (the code departs from the claim).  Login raises an authentication
    error whose code is neither INVALID_USERNAME_OR_PASSWORD nor
    INVALID_CREDENTIALS; [async_setup_entry] does not let it propagate: the
    error is swallowed and the function returns [True], login having been
    the last call it made. *)
Theorem setup_other_auth_error_returns_true :
  login (host_login_fails (aioaquarea.OTHER_CODE "TOKEN_EXPIRED"))
        [EvCreateClientSession 0; EvNewClient client1] client1
  = Raise (AuthenticationError (aioaquarea.OTHER_CODE "TOKEN_EXPIRED")) /\
  fst (async_setup_entry (host_login_fails (aioaquarea.OTHER_CODE "TOKEN_EXPIRED"))
         entry0 world0)
  = Return true /\
  calls (snd (async_setup_entry
                (host_login_fails (aioaquarea.OTHER_CODE "TOKEN_EXPIRED"))
                entry0 world0))
  = [EvCreateClientSession 0; EvNewClient client1; EvLogin client1].
Proof. repeat split; reflexivity. Qed.

(** C2.  For every configuration entry and every state of the registry, if
    login raises an authentication error with code INVALID_CREDENTIALS or
    INVALID_USERNAME_OR_PASSWORD, [async_setup_entry] raises
    [ConfigEntryAuthFailed] (chained from that error); no coordinator is
    constructed and the entry's DEVICES mapping is what it was before the
    call, hence empty if it was empty (as it is for a new entry). *)
Theorem setup_invalid_credentials_raises_auth_failed host e w code :
  code = aioaquarea.INVALID_CREDENTIALS \/
  code = aioaquarea.INVALID_USERNAME_OR_PASSWORD ->
  (forall h c, login host h c = Raise (AuthenticationError code)) ->
  exists w' new,
    async_setup_entry host e w = (Raise (ConfigEntryAuthFailed (Some code)), w') /\
    devices_of w' (entry_id e) = devices_of w (entry_id e) /\
    (devices_of w (entry_id e) = ∅ -> devices_of w' (entry_id e) = ∅) /\
    calls w' = calls w ++ new /\
    Forall (fun ev => is_new_coordinator ev = false) new.
Proof.
  intros Hcode Hlogin.
  destruct (setup_client_run e w)
    as (c & w1 & reg & s & Hrun & Hd & Hs & _ & Hds & _ & Hcached).
  rewrite (async_setup_entry_unfold _ _ _ _ _ Hrun).
  rewrite (setup_try_body_login_raises _ _ _ _ _ (Hlogin _ _)). simpl.
  assert (is_credentials_code code = true) as -> by (by destruct Hcode as [-> | ->]).
  assert (devices_of (log_call (EvLogin c) w1) (entry_id e) = devices_of w (entry_id e))
    as Hsame.
  { rewrite <- Hds. apply devices_of_slot. by rewrite (slot_of_Some _ reg). }
  destruct (client_of w (entry_id e)) as [c0|].
  - destruct Hcached as (-> & Hcalls & _).
    exists (log_call (EvLogin c0) w1), [EvLogin c0].
    split; [done|]. split; [done|]. split; [by rewrite Hsame|].
    simpl. rewrite Hcalls. split; [done|]. by repeat constructor.
  - destruct Hcached as (Hc & Hcalls & _).
    exists (log_call (EvLogin c) w1),
      [EvCreateClientSession (next_obj w); EvNewClient c; EvLogin c].
    split; [done|]. split; [done|]. split; [by rewrite Hsame|].
    simpl. rewrite Hcalls, <- app_assoc. split; [done|]. by repeat constructor.
Qed.

Lemma setup_invalid_credentials_raises_auth_failed_witness :
  exists w' new,
    async_setup_entry (host_login_fails aioaquarea.INVALID_CREDENTIALS) entry0 world0
    = (Raise (ConfigEntryAuthFailed (Some aioaquarea.INVALID_CREDENTIALS)), w') /\
    devices_of w' (entry_id entry0) = devices_of world0 (entry_id entry0) /\
    (devices_of world0 (entry_id entry0) = ∅ -> devices_of w' (entry_id entry0) = ∅) /\
    calls w' = calls world0 ++ new /\
    Forall (fun ev => is_new_coordinator ev = false) new.
Proof.
  apply (setup_invalid_credentials_raises_auth_failed
           (host_login_fails aioaquarea.INVALID_CREDENTIALS) entry0 world0
           aioaquarea.INVALID_CREDENTIALS).
  - left. reflexivity.
  - intros h c. reflexivity.
Defined.

(** ** Reuse of the cached client *)

(** C5.  For every configuration entry, every state of the registry and
    every behaviour of the collaborators in the two calls: after a first
    [async_setup_entry] (however it ended) a second call without an unload
    in between leaves the entry's cached client the same instance, creates
    no session and no client, and logs that same client in. *)
Theorem setup_twice_reuses_client host1 host2 e w :
  let w1 := snd (async_setup_entry host1 e w) in
  let w2 := snd (async_setup_entry host2 e w1) in
  exists c rest,
    client_of w1 (entry_id e) = Some c /\
    client_of w2 (entry_id e) = Some c /\
    next_obj w2 = next_obj w1 /\
    calls w2 = calls w1 ++ EvLogin c :: rest /\
    Forall (fun ev => is_new_client ev = false) rest.
Proof.
  intros w1 w2.
  destruct (async_setup_entry_any host1 e w) as (c & ds1 & Hc1 & _).
  destruct (async_setup_entry_any host2 e w1) as (c' & ds2 & Hc2 & _ & Hreuse).
  destruct (Hreuse c Hc1) as (-> & Hobj & rest & Hcalls & Hrest).
  exists c, rest. done.
Qed.

(** ** The coordinators registered by setup *)

Lemma register_lookup_elem e c ds m d :
  d ∈ ds ->
  exists d', d' ∈ ds /\ aioaquarea.device_id d' = aioaquarea.device_id d /\
    register e c ds m !! aioaquarea.device_id d
    = Some {| entry := e; client := c; device := d' |}.
Proof.
  induction ds as [|x ds IH] using rev_ind; [by intros ?%elem_of_nil|].
  intros Hin. rewrite register_snoc.
  destruct (decide (aioaquarea.device_id x = aioaquarea.device_id d)) as [Heq|Hne].
  - exists x. rewrite Heq, lookup_insert_eq.
    split; [apply elem_of_app; right; by left|done].
  - apply elem_of_app in Hin as [Hin|Hin%list_elem_of_singleton]; [|congruence].
    destruct (IH Hin) as (d' & Hd' & Hid & Hlook). exists d'.
    rewrite lookup_insert_ne by done.
    split; [apply elem_of_app; by left|done].
Qed.

(** The run of [async_setup_entry] when no collaborator fails. *)
Lemma async_setup_entry_ok host e w ds :
  (forall h c, login host h c = Return tt) ->
  (forall h c, get_devices host h c true = Return ds) ->
  (forall h co, async_config_entry_first_refresh host h co = Return tt) ->
  (forall h, async_forward_entry_setups host h e PLATFORMS = Return tt) ->
  exists w' c,
    async_setup_entry host e w = (Return true, w') /\
    client_of w' (entry_id e) = Some c /\
    devices_of w' (entry_id e) = register e c ds (devices_of w (entry_id e)).
Proof.
  intros Hlogin Hget Hrefresh Hforward.
  destruct (setup_client_run e w)
    as (c & w1 & reg & s & Hrun & Hd & Hs & Hc & Hds & _).
  rewrite (async_setup_entry_unfold _ _ _ _ _ Hrun), setup_try_body_unfold.
  rewrite Hlogin. cbv zeta. rewrite Hget.
  match goal with
  | |- context [setup_devices host e c ds ?w2] =>
      destruct (setup_devices_ok host e c ds (fun h d _ => Hrefresh h _) w2 reg s Hd Hs)
        as (w3 & Hloop & Hd3 & _)
  end.
  rewrite Hloop, Hforward. simpl. eexists _, c. split; [reflexivity|].
  unfold client_of, devices_of, slot_of. simpl.
  rewrite Hd3, lookup_insert_eq, Hds. done.
Qed.

(** C3 (as stated, refuted).  A first setup of [entry0] discovers the devices
    A and B and stops because the first refresh of B is not ready; the host
    retries the setup, which now discovers only A and completes with [True].
    The entry's slot then holds two coordinators for one discovered device. *)
Lemma setup_retry_keeps_stale_coordinator :
  let w1 :=
    snd (async_setup_entry
           (host_refresh_fails [dev_A; dev_B] "B" (HostError "ConfigEntryNotReady"))
           entry0 world0) in
  let r2 := async_setup_entry (host_ok [dev_A] true) entry0 w1 in
  fst r2 = Return true /\
  size (devices_of (snd r2) (entry_id entry0)) = 2 /\
  size (devices_of (snd r2) (entry_id entry0)) ≠ length [dev_A].
Proof. vm_compute. repeat split; congruence. Qed.

(** C3 (amended).  When login, discovery, every first refresh and the
    platform forwarding succeed, [async_setup_entry] returns [True] and the
    entry's slot holds a coordinator for every discovered device id besides
    the ids it held before the call; every stored coordinator is keyed by the
    device id of the descriptor it wraps (given that this held before); and
    when the slot held no coordinator before the call and the discovered
    device ids are pairwise distinct, the number of coordinators equals the
    number of discovered devices. *)
Theorem setup_registers_discovered_devices host e w ds :
  (forall h c, login host h c = Return tt) ->
  (forall h c, get_devices host h c true = Return ds) ->
  (forall h co, async_config_entry_first_refresh host h co = Return tt) ->
  (forall h, async_forward_entry_setups host h e PLATFORMS = Return tt) ->
  keyed_by_device_id (devices_of w (entry_id e)) ->
  exists w',
    async_setup_entry host e w = (Return true, w') /\
    dom (devices_of w' (entry_id e))
    = dom (devices_of w (entry_id e)) ∪ list_to_set (aioaquarea.device_id <$> ds) /\
    keyed_by_device_id (devices_of w' (entry_id e)) /\
    (devices_of w (entry_id e) = ∅ -> NoDup (aioaquarea.device_id <$> ds) ->
     size (devices_of w' (entry_id e)) = length ds).
Proof.
  intros Hlogin Hget Hrefresh Hforward Hkeyed.
  destruct (async_setup_entry_ok host e w ds Hlogin Hget Hrefresh Hforward)
    as (w' & c & Hrun & _ & Hdev).
  exists w'. rewrite Hdev. split; [done|]. split; [apply register_dom|].
  split; [by apply register_keyed|].
  intros -> Hnd. by apply register_size.
Qed.

Lemma setup_registers_discovered_devices_witness :
  exists w',
    async_setup_entry (host_ok [dev_A; dev_B] true) entry0 world0 = (Return true, w') /\
    dom (devices_of w' (entry_id entry0))
    = dom (devices_of world0 (entry_id entry0))
      ∪ list_to_set (aioaquarea.device_id <$> [dev_A; dev_B]) /\
    keyed_by_device_id (devices_of w' (entry_id entry0)) /\
    (devices_of world0 (entry_id entry0) = ∅ ->
     NoDup (aioaquarea.device_id <$> [dev_A; dev_B]) ->
     size (devices_of w' (entry_id entry0)) = length [dev_A; dev_B]).
Proof.
  apply (setup_registers_discovered_devices
           (host_ok [dev_A; dev_B] true) entry0 world0 [dev_A; dev_B]).
  - intros h c. reflexivity.
  - intros h c. reflexivity.
  - intros h co. reflexivity.
  - intros h. reflexivity.
  - intros k co. unfold devices_of, slot_of. simpl. rewrite lookup_empty. discriminate.
Defined.

(** ** A failing first refresh *)

Lemma setup_result_propagates err :
  (forall code, err ≠ AuthenticationError code) ->
  setup_result (Raise err) = Raise err.
Proof. intros Hne. destruct err; try done. by destruct (Hne error_code). Qed.

(** C10.  Setup is not atomic with respect to the first refreshes.  Let
    discovery return [pre ++ d :: post], let the first refreshes of the
    devices of [pre] succeed and the one of [d] raise [err].  Then the call
    ends with what the [try] statement makes of [err], which is [err] itself
    whenever [err] is not a vendor authentication error (a refresh failure of
    the host's coordinator contract is none); the coordinator of [d] is in
    the entry's slot (it was stored before its refresh was awaited), so are
    coordinators for all devices of [pre], nothing was stored for [post],
    and none of the calls made is the platform forwarding. *)
Theorem setup_refresh_failure_keeps_coordinators host e w pre d post err :
  (forall h c, login host h c = Return tt) ->
  (forall h c, get_devices host h c true = Return (pre ++ d :: post)) ->
  (forall h co, device co ∈ pre ->
     async_config_entry_first_refresh host h co = Return tt) ->
  (forall h co, device co = d ->
     async_config_entry_first_refresh host h co = Raise err) ->
  exists w' c new,
    async_setup_entry host e w = (setup_result (Raise err), w') /\
    ((forall code, err ≠ AuthenticationError code) ->
     async_setup_entry host e w = (Raise err, w')) /\
    client_of w' (entry_id e) = Some c /\
    devices_of w' (entry_id e) !! aioaquarea.device_id d
    = Some {| entry := e; client := c; device := d |} /\
    (forall d', d' ∈ pre ->
       exists d'', d'' ∈ pre ++ [d] /\
         aioaquarea.device_id d'' = aioaquarea.device_id d' /\
         devices_of w' (entry_id e) !! aioaquarea.device_id d'
         = Some {| entry := e; client := c; device := d'' |}) /\
    dom (devices_of w' (entry_id e))
    = dom (devices_of w (entry_id e))
      ∪ list_to_set (aioaquarea.device_id <$> (pre ++ [d])) /\
    calls w' = calls w ++ new /\
    Forall (fun ev => is_forward ev = false) new.
Proof.
  intros Hlogin Hget Hpre Hbad.
  destruct (setup_client_run e w)
    as (c & w1 & reg & s & Hrun & Hd & Hs & Hc & Hds & _ & Hcached).
  rewrite (async_setup_entry_unfold _ _ _ _ _ Hrun), setup_try_body_unfold.
  rewrite Hlogin. cbv zeta. rewrite Hget.
  match goal with
  | |- context [setup_devices host e c _ ?w2] =>
      destruct (setup_devices_raise host e c pre d post err
                  (fun h d' Hin => Hpre h {| entry := e; client := c; device := d' |} Hin)
                  (fun h => Hbad h {| entry := e; client := c; device := d |} eq_refl)
                  w2 reg s Hd Hs)
        as (w3 & Hloop & Hd3 & Hc3 & _)
  end.
  rewrite Hloop. cbn [fst snd].
  assert (devices_of w3 (entry_id e) = register e c (pre ++ [d]) (devices_of w (entry_id e)))
    as Hdev.
  { unfold devices_of at 1. rewrite (slot_of_Some _ _ _ Hd3), lookup_insert_eq.
    simpl. by rewrite Hds. }
  assert (exists new, calls w3 = calls w ++ new /\
                      Forall (fun ev => is_forward ev = false) new)
    as (new & Hnew & Hfw).
  { simpl in Hc3. rewrite <- !app_assoc in Hc3. simpl in Hc3.
    destruct (client_of w (entry_id e)) as [c0|].
    - destruct Hcached as (_ & Hcalls & _). rewrite Hcalls in Hc3.
      eexists. split; [exact Hc3|].
      repeat (constructor; [done|]). apply device_calls_no_forward.
    - destruct Hcached as (_ & Hcalls & _). rewrite Hcalls, <- app_assoc in Hc3.
      eexists. split; [exact Hc3|]. simpl.
      repeat (constructor; [done|]). apply device_calls_no_forward. }
  exists w3, c, new. split; [done|].
  split; [intros Hne; by rewrite setup_result_propagates|].
  split; [unfold client_of; by rewrite (slot_of_Some _ _ _ Hd3), lookup_insert_eq|].
  rewrite Hdev. split.
  { rewrite register_snoc. apply lookup_insert_eq. }
  split.
  { intros d' Hin. apply register_lookup_elem, elem_of_app. by left. }
  split; [apply register_dom|done].
Qed.

Lemma setup_refresh_failure_keeps_coordinators_witness :
  exists w' c new,
    async_setup_entry
      (host_refresh_fails [dev_A; dev_B] "B" (HostError "ConfigEntryNotReady"))
      entry0 world0
    = (setup_result (Raise (HostError "ConfigEntryNotReady")), w') /\
    ((forall code, HostError "ConfigEntryNotReady" ≠ AuthenticationError code) ->
     async_setup_entry
       (host_refresh_fails [dev_A; dev_B] "B" (HostError "ConfigEntryNotReady"))
       entry0 world0
     = (Raise (HostError "ConfigEntryNotReady"), w')) /\
    client_of w' (entry_id entry0) = Some c /\
    devices_of w' (entry_id entry0) !! aioaquarea.device_id dev_B
    = Some {| entry := entry0; client := c; device := dev_B |} /\
    (forall d', d' ∈ [dev_A] ->
       exists d'', d'' ∈ [dev_A] ++ [dev_B] /\
         aioaquarea.device_id d'' = aioaquarea.device_id d' /\
         devices_of w' (entry_id entry0) !! aioaquarea.device_id d'
         = Some {| entry := entry0; client := c; device := d'' |}) /\
    dom (devices_of w' (entry_id entry0))
    = dom (devices_of world0 (entry_id entry0))
      ∪ list_to_set (aioaquarea.device_id <$> ([dev_A] ++ [dev_B])) /\
    calls w' = calls world0 ++ new /\
    Forall (fun ev => is_forward ev = false) new.
Proof.
  apply (setup_refresh_failure_keeps_coordinators
           (host_refresh_fails [dev_A; dev_B] "B" (HostError "ConfigEntryNotReady"))
           entry0 world0 [dev_A] dev_B [] (HostError "ConfigEntryNotReady")).
  - intros h c. reflexivity.
  - intros h c. reflexivity.
  - intros h co Hin. apply list_elem_of_singleton in Hin. simpl. rewrite Hin.
    reflexivity.
  - intros h co Hd. simpl. rewrite Hd. reflexivity.
Defined.

(** ** Unload *)

(** C4.  Let the entry have a slot (as it has after any call of
    [async_setup_entry]) and let the host's platform unload answer [b].
    Then [async_unload_entry] returns [b]; the entry id is absent from the
    registry afterwards exactly when [b] is [True]; when [b] is [False] the
    registry is unchanged; and the slots of other entries are never
    touched. *)
Theorem unload_drops_slot_iff_unload_ok host e w b :
  async_unload_platforms host (calls w) e PLATFORMS = Return b ->
  is_Some (slot_of w (entry_id e)) ->
  exists w',
    async_unload_entry host e w = (Return b, w') /\
    (slot_of w' (entry_id e) = None <-> b = true) /\
    (b = false -> hass_data w' = hass_data w) /\
    (forall k, k ≠ entry_id e -> slot_of w' k = slot_of w k).
Proof.
  intros Hhost [s Hs]. unfold async_unload_entry. run. rewrite Hhost.
  unfold slot_of in Hs. destruct (hass_data w) as [reg|] eqn:Hd; [|done].
  destruct b; simpl.
  - rewrite Hd, Hs. simpl. eexists. split; [reflexivity|].
    unfold slot_of. simpl. rewrite lookup_delete_eq, Hd.
    split; [done|]. split; [done|].
    intros k Hne. by rewrite lookup_delete_ne.
  - eexists. split; [reflexivity|]. unfold slot_of. simpl. rewrite Hd, Hs.
    split; [split; discriminate|]. done.
Qed.

Lemma unload_drops_slot_iff_unload_ok_witness :
  exists w',
    async_unload_entry (host_ok [dev_A] true) entry0
      (snd (async_setup_entry (host_ok [dev_A] true) entry0 world0))
    = (Return true, w') /\
    (slot_of w' (entry_id entry0) = None <-> true = true) /\
    (true = false ->
     hass_data w'
     = hass_data (snd (async_setup_entry (host_ok [dev_A] true) entry0 world0))) /\
    (forall k, k ≠ entry_id entry0 ->
       slot_of w' k
       = slot_of (snd (async_setup_entry (host_ok [dev_A] true) entry0 world0)) k).
Proof.
  apply (unload_drops_slot_iff_unload_ok (host_ok [dev_A] true) entry0
           (snd (async_setup_entry (host_ok [dev_A] true) entry0 world0)) true).
  - reflexivity.
  - eexists. vm_compute. reflexivity.
Defined.

(** Outside that precondition: a successful platform unload for an entry that
    has no slot ends in [KeyError]. *)
Lemma unload_without_slot_raises host e w reg :
  async_unload_platforms host (calls w) e PLATFORMS = Return true ->
  hass_data w = Some reg -> reg !! entry_id e = None ->
  fst (async_unload_entry host e w) = Raise (KeyError (entry_id e)).
Proof.
  intros Hhost Hd Hs. unfold async_unload_entry. run. rewrite Hhost. simpl.
  rewrite Hd. simpl. by rewrite Hs.
Qed.

(** ** Migration *)

(** The loop over the entities always returns and leaves the world alone. *)
Lemma migrate_entities_run devices entities :
  forall locals w, exists locals',
    migrate_entities devices entities locals w = (Return locals', w).
Proof.
  induction entities as [|ent rest IH]; intros locals w; [by eexists|].
  simpl. unfold bind, migrate_entity.
  destruct (next _) as [d|]; simpl; apply IH.
Qed.

Lemma async_migrate_entry_run config_entry w :
  async_migrate_entry config_entry w = (Return false, w).
Proof.
  unfold async_migrate_entry, entity_registry_async_get, device_registry_async_get.
  unfold bind at 1 2 3.
  destruct (migrate_entities_run
              (device_registry.async_entries_for_config_entry (dev_reg w)
                 (entry_id config_entry))
              (entity_registry.async_entries_for_config_entry (ent_reg w)
                 (entry_id config_entry))
              {| local_device := None; local_device_guid := None |} w)
    as [locals' Hrun].
  by rewrite Hrun.
Qed.

(** C6.  [async_migrate_entry] returns [False] for every configuration
    entry and every content of the entity and device registries: the value
    the loop computes is dropped. *)
Theorem migrate_returns_false config_entry w :
  fst (async_migrate_entry config_entry w) = Return false.
Proof. by rewrite async_migrate_entry_run. Qed.

(** C8.  [async_migrate_entry] only reads: after it has run, the entity
    registry and the device registry are what they were, and so is the rest
    of the world. *)
Theorem migrate_leaves_registries_unchanged config_entry w :
  ent_reg (snd (async_migrate_entry config_entry w)) = ent_reg w /\
  dev_reg (snd (async_migrate_entry config_entry w)) = dev_reg w /\
  snd (async_migrate_entry config_entry w) = w.
Proof. by rewrite async_migrate_entry_run. Qed.

(** ** The base entity *)

(** C7.  For every coordinator, the entity built from it has the device id
    of the coordinator's descriptor as unique id, the descriptor's
    manufacturer as device-info manufacturer, the descriptor's name as entity
    name and the descriptor's version as device-info firmware version. *)
Theorem base_entity_attributes co :
  _attr_unique_id (AquareaBaseEntity__init__ co) = aioaquarea.device_id (device co) /\
  entity.manufacturer (_attr_device_info (AquareaBaseEntity__init__ co))
  = aioaquarea.manufacturer (device co) /\
  _attr_name (AquareaBaseEntity__init__ co) = aioaquarea.name (device co) /\
  entity.sw_version (_attr_device_info (AquareaBaseEntity__init__ co))
  = aioaquarea.version (device co).
Proof. repeat split. Qed.

(** C9.  When the superclass attach step returns, [async_added_to_hass]
    makes exactly two calls, in this order: the superclass attach step and
    then the coordinator-update handler, which is thus invoked exactly once;
    the outcome of the method is the handler's. *)
Theorem added_to_hass_calls_handler_once host self w :
  super_async_added_to_hass host (calls w) self = Return tt ->
  exists w',
    async_added_to_hass host self w
    = (_handle_coordinator_update host (calls w ++ [EvSuperAddedToHass self]) self, w') /\
    calls w' = calls w ++ [EvSuperAddedToHass self; EvHandleCoordinatorUpdate self] /\
    handler_calls (calls w') = S (handler_calls (calls w)).
Proof.
  intros Hsuper. unfold async_added_to_hass. run. rewrite Hsuper.
  eexists. split; [reflexivity|]. simpl. rewrite <- app_assoc.
  split; [done|]. unfold handler_calls. rewrite filter_app, length_app. simpl. lia.
Qed.

Lemma added_to_hass_calls_handler_once_witness :
  exists w',
    async_added_to_hass (host_ok [] true) entity_A world0
    = (_handle_coordinator_update (host_ok [] true)
         (calls world0 ++ [EvSuperAddedToHass entity_A]) entity_A, w') /\
    calls w' = calls world0 ++ [EvSuperAddedToHass entity_A;
                                EvHandleCoordinatorUpdate entity_A] /\
    handler_calls (calls w') = S (handler_calls (calls world0)).
Proof.
  apply (added_to_hass_calls_handler_once (host_ok [] true) entity_A world0).
  reflexivity.
Defined.

(** When the superclass attach step raises, the handler is not invoked and
    the exception goes on. *)
Lemma added_to_hass_super_raises host self w err :
  super_async_added_to_hass host (calls w) self = Raise err ->
  async_added_to_hass host self w = (Raise err, log_call (EvSuperAddedToHass self) w).
Proof. intros Hsuper. unfold async_added_to_hass. run. by rewrite Hsuper. Qed.


(** * Further properties of the module *)

(** ** [initialize_data] *)

Lemma initialize_data_present e w reg s :
  hass_data w = Some reg -> reg !! entry_id e = Some s ->
  initialize_data e w = (Return tt, w).
Proof.
  intros Hd Hs. unfold initialize_data. run. rewrite Hd. simpl. rewrite Hd.
  case_bool_decide as Hk; [congruence|done].
Qed.

(** X1.  [initialize_data] never fails.  Afterwards the entry has a slot:
    the one it had, with its client and coordinators, or else a slot with
    no client and no coordinator; the slots of other entries are untouched;
    and running it again changes nothing. *)
Theorem initialize_data_idempotent e w :
  exists w',
    initialize_data e w = (Return tt, w') /\
    slot_of w' (entry_id e) = Some (default empty_slot (slot_of w (entry_id e))) /\
    (forall k, k ≠ entry_id e -> slot_of w' k = slot_of w k) /\
    initialize_data e w' = (Return tt, w').
Proof.
  destruct (initialize_data_run e w)
    as (w' & reg & s & Hrun & Hd & Hs & Hc & Hds & Hother & _).
  exists w'. split; [done|]. split.
  - rewrite (slot_of_Some _ _ _ Hd), Hs. f_equal.
    unfold client_of, devices_of in *.
    destruct (slot_of w (entry_id e)) as [s0|]; simpl;
      destruct s, s0 || destruct s; simpl in *; by subst.
  - split; [|by apply (initialize_data_present _ _ reg s)].
    intros k Hne. rewrite (slot_of_Some _ _ _ Hd). by apply Hother.
Qed.

(** ** What every call of [async_setup_entry] keeps *)

(** The whole of a call, whatever the host answers: the outcome is what the
    [try] statement makes of the outcome of its body, and the registry is
    the one before the call with the entry's slot replaced. *)
Lemma async_setup_entry_shape host e w :
  exists r w' c done_ds reg,
    async_setup_entry host e w = (setup_result r, w') /\
    hass_data w'
    = Some (<[entry_id e :=
                {| CLIENT := Some c;
                   DEVICES := register e c done_ds (devices_of w (entry_id e)) |}]> reg) /\
    (forall k, k ≠ entry_id e -> reg !! k = slot_of w k).
Proof.
  destruct (setup_client_run e w)
    as (c & w1 & reg & s & Hrun & Hd & Hs & Hc & Hds & Hother & _).
  rewrite (async_setup_entry_unfold _ _ _ _ _ Hrun).
  destruct (setup_try_body_any host e c w1 reg s Hd Hs)
    as (r & w2 & done_ds & rest & Hbody & Hd2 & _).
  rewrite Hbody. cbn [fst snd]. exists r, w2, c, done_ds, reg.
  rewrite Hd2, Hc, Hds. done.
Qed.

(** X2.  Setting up one entry never touches the slot of another: whatever
    the collaborators answer and however the call ends, the client and the
    coordinators registered under any other entry id are what they were. *)
Theorem setup_leaves_other_entries host e w k :
  k ≠ entry_id e ->
  slot_of (snd (async_setup_entry host e w)) k = slot_of w k.
Proof.
  intros Hne.
  destruct (async_setup_entry_shape host e w)
    as (r & w' & c & done_ds & reg & Hrun & Hd & Hother).
  rewrite Hrun. cbn [snd].
  rewrite (slot_of_Some _ _ _ Hd), lookup_insert_ne by done. by apply Hother.
Qed.

Lemma setup_leaves_other_entries_witness :
  slot_of (snd (async_setup_entry (host_ok [dev_A] true) entry0
                  (snd (async_setup_entry (host_ok [dev_B] true) entry1 world0))))
          "entry1"
  = slot_of (snd (async_setup_entry (host_ok [dev_B] true) entry1 world0)) "entry1".
Proof.
  apply (setup_leaves_other_entries (host_ok [dev_A] true) entry0
           (snd (async_setup_entry (host_ok [dev_B] true) entry1 world0)) "entry1").
  simpl. discriminate.
Defined.

(** X3.  [async_setup_entry] never removes a coordinator: whatever the
    collaborators answer and however the call ends, every device id that had
    a coordinator in the entry's slot before the call has one after it. *)
Theorem setup_never_removes_coordinators host e w :
  dom (devices_of w (entry_id e))
  ⊆ dom (devices_of (snd (async_setup_entry host e w)) (entry_id e)).
Proof.
  destruct (async_setup_entry_shape host e w)
    as (r & w' & c & done_ds & reg & Hrun & Hd & _).
  rewrite Hrun. cbn [snd]. unfold devices_of at 2.
  rewrite (slot_of_Some _ _ _ Hd), lookup_insert_eq. simpl.
  rewrite register_dom. apply union_subseteq_l.
Qed.

Lemma setup_result_shape r :
  setup_result r ≠ Return false /\
  forall code, setup_result r ≠ Raise (AuthenticationError code).
Proof.
  destruct r as [[]|[code| | | |]]; simpl; try done.
  destruct (is_credentials_code code); done.
Qed.

(** X4.  [async_setup_entry] never returns [False] and never lets a vendor
    [AuthenticationError] out: for every entry, world and behaviour of the
    collaborators its outcome is [True] or an exception of another type. *)
Theorem setup_never_false_nor_authentication_error host e w :
  fst (async_setup_entry host e w) ≠ Return false /\
  forall code, fst (async_setup_entry host e w) ≠ Raise (AuthenticationError code).
Proof.
  destruct (async_setup_entry_shape host e w) as (r & w' & c & ds & reg & Hrun & _).
  rewrite Hrun. apply setup_result_shape.
Qed.

Lemma register_lookup_inv e c ds :
  forall m k co,
    register e c ds m !! k = Some co ->
    m !! k = Some co \/
    exists d, d ∈ ds /\ aioaquarea.device_id d = k /\
              co = {| entry := e; client := c; device := d |}.
Proof.
  induction ds as [|d ds IH]; intros m k co Hlook; [by left|].
  rewrite register_cons in Hlook. apply IH in Hlook as [Hlook|(d' & Hin & Hid & Hco)].
  - destruct (decide (aioaquarea.device_id d = k)) as [Heq|Hne].
    + rewrite Heq, lookup_insert_eq in Hlook. injection Hlook as <-.
      right. exists d. split; [by left|done].
    + rewrite lookup_insert_ne in Hlook by done. by left.
  - right. exists d'. split; [by right|done].
Qed.

(** X5.  After any call of [async_setup_entry], whatever the collaborators
    answered, every coordinator in the entry's slot either was there before
    the call, or was built in this call: then it holds the client that the
    slot caches, belongs to this entry and is stored under the device id of
    its descriptor. *)
Theorem setup_coordinators_use_cached_client host e w :
  exists c,
    client_of (snd (async_setup_entry host e w)) (entry_id e) = Some c /\
    forall k co,
      devices_of (snd (async_setup_entry host e w)) (entry_id e) !! k = Some co ->
      devices_of w (entry_id e) !! k = Some co \/
      (client co = c /\ entry co = e /\ aioaquarea.device_id (device co) = k).
Proof.
  destruct (async_setup_entry_shape host e w)
    as (r & w' & c & done_ds & reg & Hrun & Hd & _).
  rewrite Hrun. cbn [snd]. exists c. unfold client_of, devices_of at 1.
  rewrite (slot_of_Some _ _ _ Hd), lookup_insert_eq. simpl. split; [done|].
  intros k co [Hold|(d & _ & Hid & ->)]%register_lookup_inv; [by left|by right].
Qed.

(** ** The calls of a setup *)

(** Lines 42-50 with the calls they make and the client they yield. *)
Lemma setup_client_run_calls e w :
  exists c w1 reg s,
    setup_client e w = (Return c, w1) /\
    hass_data w1 = Some reg /\ reg !! entry_id e = Some s /\
    CLIENT s = Some c /\ DEVICES s = devices_of w (entry_id e) /\
    calls w1 = calls w ++ client_calls w (entry_id e) c /\
    (client_of w (entry_id e) = None ->
     c = {| aioaquarea.client_obj := S (next_obj w);
            aioaquarea.session := next_obj w;
            aioaquarea.username := conf_username e;
            aioaquarea.password := conf_password e |} /\
     next_obj w1 = S (S (next_obj w))) /\
    (forall c0, client_of w (entry_id e) = Some c0 ->
       c = c0 /\ next_obj w1 = next_obj w).
Proof.
  destruct (setup_client_run e w)
    as (c & w1 & reg & s & Hrun & Hd & Hs & Hc & Hds & _ & Hcached).
  exists c, w1, reg, s. unfold client_calls.
  destruct (client_of w (entry_id e)) as [c0|].
  - destruct Hcached as (-> & Hcalls & Hobj). rewrite app_nil_r.
    split_and!; try done. intros c1 [= <-]. done.
  - destruct Hcached as (Hceq & Hcalls & Hobj). split_and!; done.
Qed.

(** X6.  When login, discovery, every first refresh and the platform
    forwarding succeed, the calls of [async_setup_entry] are, in this order:
    the session and client construction (only when no client was cached),
    the login of the client, the discovery with [include_long_id=True], for
    each discovered device in discovery order the construction of its
    coordinator followed by its first refresh, and last the forwarding of
    the entry to exactly the four platforms. *)
Theorem setup_success_call_order host e w ds :
  (forall h c, login host h c = Return tt) ->
  (forall h c, get_devices host h c true = Return ds) ->
  (forall h co, async_config_entry_first_refresh host h co = Return tt) ->
  (forall h, async_forward_entry_setups host h e PLATFORMS = Return tt) ->
  exists w' c,
    async_setup_entry host e w = (Return true, w') /\
    client_of w' (entry_id e) = Some c /\
    calls w'
    = calls w ++ client_calls w (entry_id e) c
      ++ [EvLogin c; EvGetDevices c true]
      ++ device_calls e c ds
      ++ [EvForwardEntrySetups e [SENSOR; CLIMATE; BINARY_SENSOR; WATER_HEATER]].
Proof.
  intros Hlogin Hget Hrefresh Hforward.
  destruct (setup_client_run_calls e w)
    as (c & w1 & reg & s & Hrun & Hd & Hs & Hc & Hds & Hcalls & _).
  rewrite (async_setup_entry_unfold _ _ _ _ _ Hrun), setup_try_body_unfold.
  rewrite Hlogin. cbv zeta. rewrite Hget.
  match goal with
  | |- context [setup_devices host e c ds ?w2] =>
      destruct (setup_devices_ok host e c ds (fun h d _ => Hrefresh h _) w2 reg s Hd Hs)
        as (w3 & Hloop & Hd3 & Hc3 & _)
  end.
  rewrite Hloop, Hforward. cbn [fst snd setup_result].
  eexists _, c. split; [reflexivity|]. split.
  - unfold client_of, slot_of. simpl. by rewrite Hd3, lookup_insert_eq.
  - simpl. rewrite Hc3. simpl. rewrite Hcalls, <- !app_assoc. done.
Qed.

Lemma setup_success_call_order_witness :
  exists w' c,
    async_setup_entry (host_ok [dev_A; dev_B] true) entry0 world0 = (Return true, w') /\
    client_of w' (entry_id entry0) = Some c /\
    calls w'
    = calls world0 ++ client_calls world0 (entry_id entry0) c
      ++ [EvLogin c; EvGetDevices c true]
      ++ device_calls entry0 c [dev_A; dev_B]
      ++ [EvForwardEntrySetups entry0 [SENSOR; CLIMATE; BINARY_SENSOR; WATER_HEATER]].
Proof.
  apply (setup_success_call_order (host_ok [dev_A; dev_B] true) entry0 world0
           [dev_A; dev_B]).
  - intros h c. reflexivity.
  - intros h c. reflexivity.
  - intros h co. reflexivity.
  - intros h. reflexivity.
Defined.

(** X7.  When discovery raises an exception that is not a vendor
    authentication error, [async_setup_entry] raises that exception: the
    client stays cached in the slot, the coordinators are those from before
    the call, and the calls made end with the discovery, so neither a
    coordinator is built nor the platforms are forwarded. *)
Theorem setup_discovery_failure host e w err :
  (forall h c, login host h c = Return tt) ->
  (forall h c, get_devices host h c true = Raise err) ->
  (forall code, err ≠ AuthenticationError code) ->
  exists w' c,
    async_setup_entry host e w = (Raise err, w') /\
    client_of w' (entry_id e) = Some c /\
    devices_of w' (entry_id e) = devices_of w (entry_id e) /\
    calls w'
    = calls w ++ client_calls w (entry_id e) c ++ [EvLogin c; EvGetDevices c true].
Proof.
  intros Hlogin Hget Hne.
  destruct (setup_client_run_calls e w)
    as (c & w1 & reg & s & Hrun & Hd & Hs & Hc & Hds & Hcalls & _).
  rewrite (async_setup_entry_unfold _ _ _ _ _ Hrun), setup_try_body_unfold.
  rewrite Hlogin. cbv zeta. rewrite Hget. cbn [fst snd].
  rewrite setup_result_propagates by done.
  eexists _, c. split; [reflexivity|].
  unfold client_of, devices_of, slot_of. simpl. rewrite Hd, Hs, Hc, Hds, Hcalls.
  rewrite <- !app_assoc. done.
Qed.

Lemma setup_discovery_failure_witness :
  exists w' c,
    async_setup_entry (host_discovery_fails (HostError "RequestFailedError"))
      entry0 world0
    = (Raise (HostError "RequestFailedError"), w') /\
    client_of w' (entry_id entry0) = Some c /\
    devices_of w' (entry_id entry0) = devices_of world0 (entry_id entry0) /\
    calls w'
    = calls world0 ++ client_calls world0 (entry_id entry0) c
      ++ [EvLogin c; EvGetDevices c true].
Proof.
  apply (setup_discovery_failure (host_discovery_fails (HostError "RequestFailedError"))
           entry0 world0 (HostError "RequestFailedError")).
  - intros h c. reflexivity.
  - intros h c. reflexivity.
  - intros code. discriminate.
Defined.

(** X8.  When everything succeeds up to the platform forwarding and the
    forwarding raises an exception that is not a vendor authentication
    error, [async_setup_entry] raises that exception, and the coordinators
    of all discovered devices stay registered in the entry's slot. *)
Theorem setup_forward_failure host e w ds err :
  (forall h c, login host h c = Return tt) ->
  (forall h c, get_devices host h c true = Return ds) ->
  (forall h co, async_config_entry_first_refresh host h co = Return tt) ->
  (forall h, async_forward_entry_setups host h e PLATFORMS = Raise err) ->
  (forall code, err ≠ AuthenticationError code) ->
  exists w',
    async_setup_entry host e w = (Raise err, w') /\
    dom (devices_of w' (entry_id e))
    = dom (devices_of w (entry_id e)) ∪ list_to_set (aioaquarea.device_id <$> ds) /\
    (forall d, d ∈ ds -> is_Some (devices_of w' (entry_id e) !! aioaquarea.device_id d)).
Proof.
  intros Hlogin Hget Hrefresh Hforward Hne.
  destruct (setup_client_run_calls e w)
    as (c & w1 & reg & s & Hrun & Hd & Hs & Hc & Hds & Hcalls & _).
  rewrite (async_setup_entry_unfold _ _ _ _ _ Hrun), setup_try_body_unfold.
  rewrite Hlogin. cbv zeta. rewrite Hget.
  match goal with
  | |- context [setup_devices host e c ds ?w2] =>
      destruct (setup_devices_ok host e c ds (fun h d _ => Hrefresh h _) w2 reg s Hd Hs)
        as (w3 & Hloop & Hd3 & Hc3 & _)
  end.
  rewrite Hloop, Hforward. cbn [fst snd].
  rewrite setup_result_propagates by done.
  eexists. split; [reflexivity|].
  unfold devices_of at 1 3, slot_of. simpl. rewrite Hd3, lookup_insert_eq. simpl.
  rewrite Hds. split; [apply register_dom|].
  intros d Hin. destruct (register_lookup_elem e c ds (devices_of w (entry_id e)) d Hin)
    as (d' & _ & _ & Hlook). by rewrite Hlook.
Qed.

Lemma setup_forward_failure_witness :
  exists w',
    async_setup_entry (host_forward_fails [dev_A; dev_B] (HostError "PlatformError"))
      entry0 world0
    = (Raise (HostError "PlatformError"), w') /\
    dom (devices_of w' (entry_id entry0))
    = dom (devices_of world0 (entry_id entry0))
      ∪ list_to_set (aioaquarea.device_id <$> [dev_A; dev_B]) /\
    (forall d, d ∈ [dev_A; dev_B] ->
       is_Some (devices_of w' (entry_id entry0) !! aioaquarea.device_id d)).
Proof.
  apply (setup_forward_failure
           (host_forward_fails [dev_A; dev_B] (HostError "PlatformError"))
           entry0 world0 [dev_A; dev_B] (HostError "PlatformError")).
  - intros h c. reflexivity.
  - intros h c. reflexivity.
  - intros h co. reflexivity.
  - intros h. reflexivity.
  - intros code. discriminate.
Defined.

(** ** The client across calls *)

(** With no client cached, any call of [async_setup_entry] caches a client
    built from the entry's credentials, a fresh object. *)
Lemma async_setup_entry_new_client host e w :
  client_of w (entry_id e) = None ->
  client_of (snd (async_setup_entry host e w)) (entry_id e)
  = Some {| aioaquarea.client_obj := S (next_obj w);
            aioaquarea.session := next_obj w;
            aioaquarea.username := conf_username e;
            aioaquarea.password := conf_password e |} /\
  next_obj (snd (async_setup_entry host e w)) = S (S (next_obj w)).
Proof.
  intros Hnone.
  destruct (setup_client_run_calls e w)
    as (c & w1 & reg & s & Hrun & Hd & Hs & Hc & _ & _ & Hnew & _).
  destruct (Hnew Hnone) as [Hceq Hobj].
  rewrite (async_setup_entry_unfold _ _ _ _ _ Hrun). cbn [snd].
  destruct (setup_try_body_any host e c w1 reg s Hd Hs)
    as (r & w2 & done_ds & rest & Hbody & Hd2 & _ & _ & Ho2).
  rewrite Hbody. cbn [snd]. unfold client_of.
  rewrite (slot_of_Some _ _ _ Hd2), lookup_insert_eq. simpl.
  rewrite Hc, Hceq, Ho2. done.
Qed.

(** X9.  The cached client outlives a change of the entry's credentials.
    If a first setup of an entry (however it ended) created the client, a
    later setup without an unload in between, given the entry with the same
    id but other credentials, creates no client: it logs in the cached one,
    which still carries the user name and password of the first call. *)
Theorem setup_reuses_client_of_first_credentials host1 host2 e e' w :
  entry_id e' = entry_id e ->
  client_of w (entry_id e) = None ->
  let w1 := snd (async_setup_entry host1 e w) in
  let w2 := snd (async_setup_entry host2 e' w1) in
  exists c rest,
    client_of w2 (entry_id e) = Some c /\
    aioaquarea.username c = conf_username e /\
    aioaquarea.password c = conf_password e /\
    calls w2 = calls w1 ++ EvLogin c :: rest /\
    Forall (fun ev => is_new_client ev = false) rest.
Proof.
  intros Hid Hnone w1 w2.
  destruct (async_setup_entry_new_client host1 e w Hnone) as [Hc1 _].
  destruct (async_setup_entry_any host2 e' w1) as (c' & ds2 & Hc2 & _ & Hreuse).
  rewrite Hid in Hc2, Hreuse.
  destruct (Hreuse _ Hc1) as (-> & _ & rest & Hcalls & Hrest).
  eexists _, rest. split; [exact Hc2|]. done.
Qed.

Lemma setup_reuses_client_of_first_credentials_witness :
  let w1 :=
    snd (async_setup_entry (host_login_fails aioaquarea.INVALID_CREDENTIALS)
           entry0 world0) in
  let w2 := snd (async_setup_entry (host_ok [dev_A] true) entry0_new_password w1) in
  exists c rest,
    client_of w2 (entry_id entry0) = Some c /\
    aioaquarea.username c = conf_username entry0 /\
    aioaquarea.password c = conf_password entry0 /\
    calls w2 = calls w1 ++ EvLogin c :: rest /\
    Forall (fun ev => is_new_client ev = false) rest.
Proof.
  apply (setup_reuses_client_of_first_credentials
           (host_login_fails aioaquarea.INVALID_CREDENTIALS) (host_ok [dev_A] true)
           entry0 entry0_new_password world0).
  - reflexivity.
  - reflexivity.
Defined.

(** ** Setup and unload together *)

Lemma slot_of_default w k : slot_of w k = default ∅ (hass_data w) !! k.
Proof.
  unfold slot_of. destruct (hass_data w); simpl; [done|]. by rewrite lookup_empty.
Qed.

(** A successful platform unload of an entry that has a slot. *)
Lemma async_unload_entry_ok_run host e w reg s :
  async_unload_platforms host (calls w) e PLATFORMS = Return true ->
  hass_data w = Some reg -> reg !! entry_id e = Some s ->
  async_unload_entry host e w
  = (Return true,
     set_hass_data (Some (delete (entry_id e) reg))
       (log_call (EvUnloadPlatforms e PLATFORMS) w)).
Proof.
  intros Hhost Hd Hs. unfold async_unload_entry. run. rewrite Hhost. simpl.
  rewrite Hd. simpl. by rewrite Hs.
Qed.

(** X10.  Setup followed by a successful unload is a round trip on the
    registry.  For an entry that had no slot, after [async_setup_entry]
    (however it ended) and an [async_unload_entry] whose platform unload
    succeeds, the registry holds exactly the slots it held before the
    setup, the registry itself now existing if it did not. *)
Theorem setup_then_unload_restores_registry host1 host2 e w :
  slot_of w (entry_id e) = None ->
  (forall h, async_unload_platforms host2 h e PLATFORMS = Return true) ->
  let w1 := snd (async_setup_entry host1 e w) in
  fst (async_unload_entry host2 e w1) = Return true /\
  hass_data (snd (async_unload_entry host2 e w1)) = Some (default ∅ (hass_data w)).
Proof.
  intros Hnone Hunload w1.
  destruct (async_setup_entry_shape host1 e w)
    as (r & w' & c & done_ds & reg & Hrun & Hd & Hother).
  subst w1. rewrite Hrun. cbn [snd].
  rewrite (async_unload_entry_ok_run _ _ _ _ _ (Hunload _) Hd (lookup_insert_eq _ _ _)).
  split; [done|]. simpl. f_equal. rewrite delete_insert_eq.
  apply map_eq. intros k. destruct (decide (k = entry_id e)) as [->|Hne].
  - by rewrite lookup_delete_eq, <- slot_of_default.
  - rewrite lookup_delete_ne by done. rewrite <- slot_of_default. by apply Hother.
Qed.

Lemma setup_then_unload_restores_registry_witness :
  let w1 :=
    snd (async_setup_entry (host_ok [dev_A] true) entry0
           (snd (async_setup_entry (host_ok [dev_B] true) entry1 world0))) in
  fst (async_unload_entry (host_ok [] true) entry0 w1) = Return true /\
  hass_data (snd (async_unload_entry (host_ok [] true) entry0 w1))
  = Some (default ∅
            (hass_data (snd (async_setup_entry (host_ok [dev_B] true) entry1 world0)))).
Proof.
  apply (setup_then_unload_restores_registry (host_ok [dev_A] true) (host_ok [] true)
           entry0 (snd (async_setup_entry (host_ok [dev_B] true) entry1 world0))).
  - reflexivity.
  - intros h. reflexivity.
Defined.

(** X11.  Unloading twice fails the second time.  After an
    [async_unload_entry] that dropped the entry's slot, a second one asks the
    host to unload the platforms again and, when the host reports success,
    raises [KeyError] for the entry id, the registry being left as it was. *)
Theorem unload_twice_raises_key_error host1 host2 e w :
  is_Some (slot_of w (entry_id e)) ->
  (forall h, async_unload_platforms host1 h e PLATFORMS = Return true) ->
  (forall h, async_unload_platforms host2 h e PLATFORMS = Return true) ->
  let w1 := snd (async_unload_entry host1 e w) in
  async_unload_entry host2 e w1
  = (Raise (KeyError (entry_id e)), log_call (EvUnloadPlatforms e PLATFORMS) w1).
Proof.
  intros [s Hs] H1 H2 w1. unfold slot_of in Hs.
  destruct (hass_data w) as [reg|] eqn:Hd; [|done].
  subst w1. rewrite (async_unload_entry_ok_run _ _ _ _ _ (H1 _) Hd Hs). cbn [snd].
  unfold async_unload_entry. run. rewrite H2. simpl. by rewrite lookup_delete_eq.
Qed.

Lemma unload_twice_raises_key_error_witness :
  let w1 :=
    snd (async_unload_entry (host_ok [] true) entry0
           (snd (async_setup_entry (host_ok [dev_A] true) entry0 world0))) in
  async_unload_entry (host_ok [] true) entry0 w1
  = (Raise (KeyError (entry_id entry0)),
     log_call (EvUnloadPlatforms entry0 PLATFORMS) w1).
Proof.
  apply (unload_twice_raises_key_error (host_ok [] true) (host_ok [] true) entry0
           (snd (async_setup_entry (host_ok [dev_A] true) entry0 world0))).
  - eexists. vm_compute. reflexivity.
  - intros h. reflexivity.
  - intros h. reflexivity.
Defined.

(** X12.  A client does not survive an unload.  When a setup created the
    entry's client and a successful unload followed, the next setup builds
    a client again, from the credentials the entry has then, and this client
    is another object than the first. *)
Theorem setup_after_unload_creates_new_client host1 host2 host3 e e' w :
  entry_id e' = entry_id e ->
  client_of w (entry_id e) = None ->
  (forall h, async_unload_platforms host2 h e PLATFORMS = Return true) ->
  let w1 := snd (async_setup_entry host1 e w) in
  let w2 := snd (async_unload_entry host2 e w1) in
  let w3 := snd (async_setup_entry host3 e' w2) in
  exists c1 c3,
    client_of w1 (entry_id e) = Some c1 /\
    client_of w2 (entry_id e) = None /\
    client_of w3 (entry_id e) = Some c3 /\
    aioaquarea.client_obj c3 ≠ aioaquarea.client_obj c1 /\
    aioaquarea.username c3 = conf_username e' /\
    aioaquarea.password c3 = conf_password e'.
Proof.
  intros Hid Hnone Hunload w1 w2 w3.
  destruct (async_setup_entry_new_client host1 e w Hnone) as [Hc1 Ho1].
  destruct (async_setup_entry_shape host1 e w)
    as (r & w' & c & done_ds & reg & Hrun & Hd & _).
  assert (w1 = w') as Hw1 by (subst w1; by rewrite Hrun).
  assert (client_of w2 (entry_id e) = None /\ next_obj w2 = next_obj w1) as [Hc2 Ho2].
  { subst w2. rewrite Hw1.
    rewrite (async_unload_entry_ok_run _ _ _ _ _ (Hunload _) Hd (lookup_insert_eq _ _ _)).
    cbn [snd]. unfold client_of, slot_of. simpl. by rewrite lookup_delete_eq. }
  rewrite <- Hid in Hc2.
  destruct (async_setup_entry_new_client host3 e' w2 Hc2) as [Hc3 _].
  rewrite Hid in Hc2, Hc3.
  assert (next_obj w2 = S (S (next_obj w))) as Hn by (rewrite Ho2; exact Ho1).
  eexists _, _. split; [exact Hc1|]. split; [exact Hc2|]. split; [exact Hc3|].
  simpl. split; [lia|done].
Qed.

Lemma setup_after_unload_creates_new_client_witness :
  let w1 := snd (async_setup_entry (host_ok [dev_A] true) entry0 world0) in
  let w2 := snd (async_unload_entry (host_ok [] true) entry0 w1) in
  let w3 := snd (async_setup_entry (host_ok [dev_A] true) entry0_new_password w2) in
  exists c1 c3,
    client_of w1 (entry_id entry0) = Some c1 /\
    client_of w2 (entry_id entry0) = None /\
    client_of w3 (entry_id entry0) = Some c3 /\
    aioaquarea.client_obj c3 ≠ aioaquarea.client_obj c1 /\
    aioaquarea.username c3 = conf_username entry0_new_password /\
    aioaquarea.password c3 = conf_password entry0_new_password.
Proof.
  apply (setup_after_unload_creates_new_client
           (host_ok [dev_A] true) (host_ok [] true) (host_ok [dev_A] true)
           entry0 entry0_new_password world0).
  - reflexivity.
  - reflexivity.
  - intros h. reflexivity.
Defined.

(** ** Repeating a successful setup *)





(** X14.  A login that raises an authentication error whose code is neither
    of the two credential codes does not end the setup with an exception:
    [async_setup_entry] returns [True], having made no call after the login,
    and the entry's coordinators are those from before the call. *)
Theorem setup_login_other_code_returns_true host e w code :
  code ≠ aioaquarea.INVALID_USERNAME_OR_PASSWORD ->
  code ≠ aioaquarea.INVALID_CREDENTIALS ->
  (forall h c, login host h c = Raise (AuthenticationError code)) ->
  exists w' c,
    async_setup_entry host e w = (Return true, w') /\
    client_of w' (entry_id e) = Some c /\
    devices_of w' (entry_id e) = devices_of w (entry_id e) /\
    calls w' = calls w ++ client_calls w (entry_id e) c ++ [EvLogin c].
Proof.
  intros Hne1 Hne2 Hlogin.
  destruct (setup_client_run_calls e w)
    as (c & w1 & reg & s & Hrun & Hd & Hs & Hc & Hds & Hcalls & _).
  rewrite (async_setup_entry_unfold _ _ _ _ _ Hrun).
  rewrite (setup_try_body_login_raises _ _ _ _ _ (Hlogin _ _)). cbn [fst snd].
  assert (setup_result (Raise (AuthenticationError code)) = Return true) as ->.
  { simpl. by destruct code. }
  eexists _, c. split; [reflexivity|].
  unfold client_of, devices_of, slot_of. simpl. rewrite Hd, Hs, Hc, Hds, Hcalls.
  rewrite <- app_assoc. done.
Qed.

Lemma setup_login_other_code_returns_true_witness :
  exists w' c,
    async_setup_entry (host_login_fails (aioaquarea.OTHER_CODE "API_ERROR"))
      entry0 world0
    = (Return true, w') /\
    client_of w' (entry_id entry0) = Some c /\
    devices_of w' (entry_id entry0) = devices_of world0 (entry_id entry0) /\
    calls w' = calls world0 ++ client_calls world0 (entry_id entry0) c ++ [EvLogin c].
Proof.
  apply (setup_login_other_code_returns_true
           (host_login_fails (aioaquarea.OTHER_CODE "API_ERROR")) entry0 world0
           (aioaquarea.OTHER_CODE "API_ERROR")).
  - discriminate.
  - discriminate.
  - intros h c. reflexivity.
Defined.

(** ** Entities and the registries *)

(** X15.  An entity built from a coordinator that [async_setup_entry] left
    in the entry's slot has the key of that coordinator as unique id, and
    its device info is identified by that key under the domain.  This holds
    after every call, whatever the collaborators answered, provided the
    coordinators were keyed by their device ids before the call. *)
Theorem entity_unique_id_is_registry_key host e w k co :
  keyed_by_device_id (devices_of w (entry_id e)) ->
  devices_of (snd (async_setup_entry host e w)) (entry_id e) !! k = Some co ->
  _attr_unique_id (AquareaBaseEntity__init__ co) = k /\
  entity.identifiers (_attr_device_info (AquareaBaseEntity__init__ co))
  = {[ (DOMAIN, k) ]}.
Proof.
  intros Hkeyed Hlook.
  apply (async_setup_entry_keeps_keyed host e w Hkeyed) in Hlook.
  simpl. by rewrite Hlook.
Qed.

Lemma entity_unique_id_is_registry_key_witness :
  _attr_unique_id
    (AquareaBaseEntity__init__ {| entry := entry0; client := client1; device := dev_A |})
  = "A" /\
  entity.identifiers
    (_attr_device_info
       (AquareaBaseEntity__init__ {| entry := entry0; client := client1; device := dev_A |}))
  = {[ (DOMAIN, "A") ]}.
Proof.
  apply (entity_unique_id_is_registry_key (host_ok [dev_A; dev_B] true) entry0 world0
           "A" {| entry := entry0; client := client1; device := dev_A |}).
  - intros k co. unfold devices_of, slot_of. simpl. rewrite lookup_empty. discriminate.
  - vm_compute. reflexivity.
Defined.

(** X16.  Two entities have the same device-info identifiers exactly when
    their coordinators wrap descriptors with the same device id: entities of
    one device are grouped under one device of the host, entities of
    different devices never are. *)
Theorem entity_identifiers_injective co1 co2 :
  entity.identifiers (_attr_device_info (AquareaBaseEntity__init__ co1))
  = entity.identifiers (_attr_device_info (AquareaBaseEntity__init__ co2))
  <-> aioaquarea.device_id (device co1) = aioaquarea.device_id (device co2).
Proof.
  simpl. split.
  - intros Heq. apply (inj singleton) in Heq. congruence.
  - by intros ->.
Qed.

Lemma next_filter_first {A} (P : A -> Prop) `{!forall x, Decision (P x)}
    (pre : list A) (x : A) (post : list A) :
  (forall y, y ∈ pre -> ~ P y) -> P x ->
  next (filter P (pre ++ x :: post)) = Some x.
Proof.
  intros Hpre Hx. induction pre as [|y pre IH]; simpl.
  - by rewrite filter_cons_True.
  - rewrite filter_cons_False by (apply Hpre; by left).
    apply IH. intros z Hz. apply Hpre. by right.
Qed.

(** X17.  Migration reads back the identifier that the base entity wrote.
    Take a stored entity attached to the device-registry entry [rid], and let
    the first of the entry's devices with that id carry the identifiers of
    the device info of an entity built from a coordinator.  Then the
    iteration of the migration loop for that entity finds this device and
    computes, as device-scoped identifier, the device id of the
    coordinator's descriptor, without changing the world. *)
Theorem migrate_entity_reads_back_device_id co rid cfg ent pre post locals w :
  entity_registry.device_id ent = Some rid ->
  (forall d, d ∈ pre -> device_registry.id d ≠ rid) ->
  migrate_entity
    (pre ++ device_entry_of rid cfg (AquareaBaseEntity__init__ co) :: post)
    ent locals w
  = (Return
       {| local_device := Some (device_entry_of rid cfg (AquareaBaseEntity__init__ co));
          local_device_guid := Some (Some (aioaquarea.device_id (device co))) |},
     w).
Proof.
  intros Hdev Hpre. unfold migrate_entity.
  rewrite next_filter_first.
  - simpl. rewrite elements_singleton, filter_cons_True by done. done.
  - intros d Hin. rewrite Hdev. intros [= Heq]. by apply (Hpre d).
  - by rewrite Hdev.
Qed.

Lemma migrate_entity_reads_back_device_id_witness :
  migrate_entity
    ([] ++ device_entry_of "dev-row-1" "entry0" entity_A :: [])
    {| entity_registry.entity_id := "sensor.heat_pump_a";
       entity_registry.config_entry_id := Some "entry0";
       entity_registry.device_id := Some "dev-row-1" |}
    {| local_device := None; local_device_guid := None |} world0
  = (Return
       {| local_device := Some (device_entry_of "dev-row-1" "entry0" entity_A);
          local_device_guid := Some (Some (aioaquarea.device_id dev_A)) |},
     world0).
Proof.
  apply (migrate_entity_reads_back_device_id
           {| entry := entry0; client := client1; device := dev_A |}
           "dev-row-1" "entry0"
           {| entity_registry.entity_id := "sensor.heat_pump_a";
              entity_registry.config_entry_id := Some "entry0";
              entity_registry.device_id := Some "dev-row-1" |}
           [] [] {| local_device := None; local_device_guid := None |} world0).
  - reflexivity.
  - intros d Hin. apply elem_of_nil in Hin. destruct Hin.
Defined.

(** ** An invariant of the registry *)

(** The registry after a call of [async_setup_entry], with the client
    related to the one cached before. *)
Lemma async_setup_entry_registry host e w :
  exists c done_ds reg,
    hass_data (snd (async_setup_entry host e w))
    = Some (<[entry_id e :=
                {| CLIENT := Some c;
                   DEVICES := register e c done_ds (devices_of w (entry_id e)) |}]> reg) /\
    (forall k, k ≠ entry_id e -> reg !! k = slot_of w k) /\
    (forall c0, client_of w (entry_id e) = Some c0 -> c = c0).
Proof.
  destruct (setup_client_run e w)
    as (c & w1 & reg & s & Hrun & Hd & Hs & Hc & Hds & Hother & Hcached).
  rewrite (async_setup_entry_unfold _ _ _ _ _ Hrun). cbn [snd].
  destruct (setup_try_body_any host e c w1 reg s Hd Hs)
    as (r & w2 & done_ds & rest & Hbody & Hd2 & _).
  rewrite Hbody. cbn [snd]. exists c, done_ds, reg.
  rewrite Hd2, Hc, Hds. split; [done|]. split; [done|].
  intros c0 Hc0. rewrite Hc0 in Hcached. by destruct Hcached.
Qed.

(** The registry after a call of [async_unload_entry]: untouched, or without
    the entry's slot. *)
Lemma async_unload_entry_registry host e w :
  hass_data (snd (async_unload_entry host e w)) = hass_data w \/
  exists reg,
    hass_data w = Some reg /\
    hass_data (snd (async_unload_entry host e w)) = Some (delete (entry_id e) reg).
Proof.
  unfold async_unload_entry. run.
  destruct (async_unload_platforms host (calls w) e PLATFORMS) as [[|]|err]; simpl;
    [|by left..].
  destruct (hass_data w) as [reg|] eqn:Hd; simpl; [|by left].
  destruct (reg !! entry_id e) as [s|]; simpl; [|by left].
  right. by exists reg.
Qed.

Lemma registry_consistent_setup host e w :
  registry_consistent w ->
  registry_consistent (snd (async_setup_entry host e w)).
Proof.
  intros Hinv key s k co Hslot Hlook.
  destruct (async_setup_entry_registry host e w)
    as (c & done_ds & reg & Hd & Hother & Hold).
  rewrite (slot_of_Some _ _ _ Hd) in Hslot.
  destruct (decide (key = entry_id e)) as [->|Hne].
  - rewrite lookup_insert_eq in Hslot. injection Hslot as <-. simpl in *.
    apply register_lookup_inv in Hlook as [Hlook|(d & _ & Hid & ->)]; [|done].
    unfold devices_of in Hlook.
    destruct (slot_of w (entry_id e)) as [s0|] eqn:Hs0;
      [|by rewrite lookup_empty in Hlook].
    destruct (Hinv _ _ _ _ Hs0 Hlook) as (Hk & He & Hc). split; [done|]. split; [done|].
    f_equal. apply Hold. by rewrite (client_of_slot _ _ _ Hs0).
  - rewrite lookup_insert_ne, Hother in Hslot by done. by apply (Hinv key s).
Qed.

Lemma registry_consistent_unload host e w :
  registry_consistent w ->
  registry_consistent (snd (async_unload_entry host e w)).
Proof.
  intros Hinv key s k co Hslot Hlook.
  destruct (async_unload_entry_registry host e w) as [Hsame|(reg & Hd & Hd')].
  - apply (Hinv key s); [|done]. unfold slot_of in *. by rewrite <- Hsame.
  - apply (Hinv key s); [|done].
    rewrite (slot_of_Some _ _ _ Hd') in Hslot. rewrite (slot_of_Some _ _ _ Hd).
    by apply lookup_delete_Some in Hslot as [_ ?].
Qed.

(** X18.  In every world the host can reach from an empty [hass.data] by
    calling [async_setup_entry], [async_unload_entry] and
    [async_migrate_entry] for any entries, in any order and with any answers
    of the collaborators, each registered coordinator is stored under the
    device id of its descriptor, in the slot of the entry it was built for,
    and holds the client cached in that slot: coordinators are never shared
    between entries, and the coordinators of one entry share one client. *)
Theorem reachable_registry_consistent w :
  reachable w -> registry_consistent w.
Proof.
  induction 1 as [w Hd|host e w _ IH|host e w _ IH|e w _ IH].
  - intros key s k co Hslot. unfold slot_of in Hslot. by rewrite Hd in Hslot.
  - by apply registry_consistent_setup.
  - by apply registry_consistent_unload.
  - by rewrite async_migrate_entry_run.
Qed.

Lemma reachable_registry_consistent_witness :
  registry_consistent
    (snd (async_setup_entry (host_ok [dev_A] true) entry0
            (snd (async_unload_entry (host_ok [] true) entry0
                    (snd (async_setup_entry
                            (host_refresh_fails [dev_A; dev_B] "B"
                               (HostError "ConfigEntryNotReady"))
                            entry0 world0)))))).
Proof.
  apply (reachable_registry_consistent
           (snd (async_setup_entry (host_ok [dev_A] true) entry0
                   (snd (async_unload_entry (host_ok [] true) entry0
                           (snd (async_setup_entry
                                   (host_refresh_fails [dev_A; dev_B] "B"
                                      (HostError "ConfigEntryNotReady"))
                                   entry0 world0))))))).
  apply reach_setup, reach_unload, reach_setup, reach_start. reflexivity.
Defined.
